(** * Verification of the periodic-task worker (package [worker])

    A shallow embedding of the scheduling layer built on a work-queue
    engine: registration ([Cron], [Once], [Remove]), the scan tick
    ([scan]), the dispatcher ([ProcessTask], [processed]), the archive
    reaper ([clearArchived]) and the cron evaluator wrapper ([getNext]).

    Conventions of the embedding.
    - Go's [int64] and [int] values are integers of [Z]; the operations
      that can overflow in the code ([-], [++], [*]) are wrapped by
      [wrap64].
    - Instants are unix timestamps in seconds; durations are
      nanoseconds, as [time.Duration] has them.
    - The redis hash that holds the periodic tasks is a finite map from
      uid to the record. The hash stores the JSON text of a record; the
      model keeps the record that text decodes to. A record read from
      the hash is written back as it is; a record built from a
      registration is stored as it reads back, its strings coerced to
      valid UTF-8 ([reread]).
    - A read or a write of a single field of the hash ([HGet],
      [HSet]) can fail; the reading of the whole hash, the deletion
      of a field and the pipeline ([HGetAll], [HDel], [Exec]), whose
      errors the code drops, go through.
    - The third-party collaborators (the cron expression library, the
      queue engine, the HTTP client) are interfaces: type classes whose
      instances are supplied where concrete runs are evaluated. *)

From Stdlib Require Import ZArith Ascii String List Bool Lia.
From stdpp Require Import base option gmap strings list fin_maps pretty.

Local Open Scope string_scope.
Local Open Scope list_scope.
Local Open Scope Z_scope.

(** ** Machine integers *)

Definition wrap64 (z : Z) : Z := (z + 2 ^ 63) mod 2 ^ 64 - 2 ^ 63.

Definition int64_range (z : Z) : Prop := - 2 ^ 63 <= z < 2 ^ 63.

(** [time.Second], in nanoseconds. *)
Definition Second : Z := 1000000000.

(** [time.Duration(n) * time.Second] *)
Definition Seconds (n : Z) : Z := wrap64 (n * Second).

(** ** Errors *)

Inductive error : Type :=
| ErrUuidNil
| ErrExprInvalid
| ErrSaveCron
| ErrHttpCallbackInvalidStatusCode
| ErrCollaborator (code : Z).

(** ** Strings *)

(** [strings.HasSuffix] *)
Definition HasSuffix (s suffix : string) : bool :=
  (String.length suffix <=? String.length s)%nat &&
  String.eqb
    (substring (String.length s - String.length suffix) (String.length suffix) s)
    suffix.

(** ** The queue engine's vocabulary *)

Module asynq.

Inductive Option : Type :=
| Queue (name : string)
| MaxRetry (n : Z)
| Timeout (d : Z)
| Retention (d : Z)
| ProcessAt (t : Z)
| ProcessIn (d : Z)
| TaskID (id : string).

(** [asynq.NewTask(typename, payload, opts...)] *)
Record Task : Type := NewTask {
  Type_ : string;
  Payload : string;
  opts : list Option
}.

(** What the inspector reports of an archived task. *)
Record TaskInfo : Type := {
  ID : string;
  Type_of : string;
  LastFailedAt : Z;
  Retried : Z;
  MaxRetry_of : Z
}.

(** Options are composed left to right, a later option of a kind
    replacing an earlier one of the same kind. *)
Section Compose.
Context {A : Type} (pick : Option -> option A).

Fixpoint lastOption (l : list Option) : option A :=
  match l with
  | [] => None
  | o :: l' =>
      match lastOption l' with
      | Some a => Some a
      | None => pick o
      end
  end.
End Compose.

Definition pickQueue (o : Option) : option string :=
  match o with Queue q => Some q | _ => None end.
Definition pickMaxRetry (o : Option) : option Z :=
  match o with MaxRetry n => Some n | _ => None end.
Definition pickTimeout (o : Option) : option Z :=
  match o with Timeout d => Some d | _ => None end.
Definition pickRetention (o : Option) : option Z :=
  match o with Retention d => Some d | _ => None end.
Definition pickProcessAt (o : Option) : option Z :=
  match o with ProcessAt t => Some t | _ => None end.
Definition pickTaskID (o : Option) : option string :=
  match o with TaskID id => Some id | _ => None end.

(** One call of [Client.Enqueue(task, opts...)]: the options of the
    task come first, those of the call after them. *)
Record Submission : Type := {
  task : Task;
  callOpts : list Option
}.

Definition allOpts (s : Submission) : list Option :=
  opts (task s) ++ callOpts s.

Definition queueOf (s : Submission) : option string := lastOption pickQueue (allOpts s).
Definition maxRetryOf (s : Submission) : option Z := lastOption pickMaxRetry (allOpts s).
Definition timeoutOf (s : Submission) : option Z := lastOption pickTimeout (allOpts s).
Definition retentionOf (s : Submission) : option Z := lastOption pickRetention (allOpts s).
Definition processAtOf (s : Submission) : option Z := lastOption pickProcessAt (allOpts s).
Definition taskIDOf (s : Submission) : option string := lastOption pickTaskID (allOpts s).

Definition pickProcessIn (o : Option) : option Z :=
  match o with ProcessIn d => Some d | _ => None end.
Definition processInOf (s : Submission) : option Z := lastOption pickProcessIn (allOpts s).

End asynq.

(** ** Collaborators *)

(** The cron expression library: [cronexpr.Parse] and
    [Expression.Next], the latter on unix seconds. *)
Class CronLibrary : Type := {
  Expression : Type;
  cronexpr_Parse : string -> option Expression;
  cronexpr_Next : Expression -> Z -> Z
}.

(** The queue engine behind [asynq.Client] and [asynq.Inspector]. *)
Class QueueEngine : Type := {
  Q : Type;
  client_Enqueue : Q -> asynq.Submission -> Q * option error;
  inspector_DeleteTask : Q -> string -> string -> Q * option error;
  inspector_ListArchivedTasks : Q -> string -> list asynq.TaskInfo + error
}.

(** ** Data model *)

Record periodTask : Type := {
  Expr : string;
  Name : string;
  Uid : string;
  Payload : string;
  Next : Z;
  Processed : Z;
  MaxRetry : Z;
  Timeout : Z
}.

(** The JSON encoding: [json.Marshal] replaces the bytes of a string
    that are not valid UTF-8 by the replacement character;
    [ToValidUTF8] is that coercion. *)
Class JsonCodec : Type := {
  ToValidUTF8 : string -> string
}.

(** The zero value, what [FromString] leaves of a record it cannot decode. *)
Definition zeroTask : periodTask :=
  {| Expr := ""; Name := ""; Uid := ""; Payload := "";
     Next := 0; Processed := 0; MaxRetry := 0; Timeout := 0 |}.

(** [FromString] of [String]: the record as the hash gives it back
    once written. The numbers come back as they are, the strings
    coerced to valid UTF-8. *)
Definition reread `{JsonCodec} (p : periodTask) : periodTask :=
  {| Expr := ToValidUTF8 (Expr p); Name := ToValidUTF8 (Name p);
     Uid := ToValidUTF8 (Uid p); Payload := ToValidUTF8 (Payload p);
     Next := Next p; Processed := Processed p;
     MaxRetry := MaxRetry p; Timeout := Timeout p |}.

Definition set_Next (p : periodTask) (n : Z) : periodTask :=
  {| Expr := Expr p; Name := Name p; Uid := Uid p; Payload := Payload p;
     Next := n; Processed := Processed p;
     MaxRetry := MaxRetry p; Timeout := Timeout p |}.

Definition set_Processed (p : periodTask) (n : Z) : periodTask :=
  {| Expr := Expr p; Name := Name p; Uid := Uid p; Payload := Payload p;
     Next := Next p; Processed := n;
     MaxRetry := MaxRetry p; Timeout := Timeout p |}.

(** The payload envelope handed to the handler (the Go type [Payload];
    its field [Payload] is [Body] here, the name being taken). *)
Module envelope.
Record Payload : Type := {
  Category : string;
  Uid : string;
  Body : string
}.
End envelope.

(** Modelled from the spec: the options of a worker, whose declaration
    [Options] is not part of the sources at hand. These are the fields
    the worker reads, and [timeout], the default timeout of the group
    that the specification speaks of. *)
Record Options : Type := {
  group : string;
  retention : Z;
  maxRetry : Z;
  timeout : Z;
  handler : option (envelope.Payload -> option error);
  callback : string;
  clearArchivedInterval : Z
}.

(** Modelled from the spec: the options of one registration, whose
    declaration [RunOptions] is not part of the sources at hand, with
    the fields the worker reads. *)
Record RunOptions : Type := {
  run_uid : string;
  run_category : string;
  run_payload : string;
  run_expr : string;
  run_in : option Z;
  run_at : option Z;
  run_now : bool;
  run_retention : Z;
  run_maxRetry : Z;
  run_timeout : Z
}.

Record Worker : Type := { ops : Options }.

(** The HTTP client of the callback: a response status, or a transport
    error. *)
Class HttpClient : Type := {
  http_Do : string -> envelope.Payload -> Z + error
}.

Definition StatusOK : Z := 200.

(** ** Shared state: the hash of records, the lock and the queue engine *)

(** [hgetFails] and [hsetFails] tell which reads and writes of a field
    of the hash fail, with an error other than [redis.Nil]; they are
    the state of the link to the store, which no operation changes. *)
Record World `{QueueEngine} : Type := {
  store : gmap string periodTask;
  lockHeld : bool;
  queue : Q;
  hgetFails : string -> bool;
  hsetFails : string -> bool
}.

Section Shared.
Context `{QE : QueueEngine}.

Definition with_store (w : World) (s : gmap string periodTask) : World :=
  {| store := s; lockHeld := lockHeld w; queue := queue w;
     hgetFails := hgetFails w; hsetFails := hsetFails w |}.

Definition with_queue (w : World) (q : Q) : World :=
  {| store := store w; lockHeld := lockHeld w; queue := q;
     hgetFails := hgetFails w; hsetFails := hsetFails w |}.

Definition with_lock (w : World) (b : bool) : World :=
  {| store := store w; lockHeld := b; queue := queue w;
     hgetFails := hgetFails w; hsetFails := hsetFails w |}.

(** Modelled from the spec: the Leader Lock, whose package [lock] is
    not part of the sources at hand. [Lock] is the non-blocking
    acquisition: it succeeds exactly when nobody holds the lock, and
    then the caller holds it. *)
Definition Lock (w : World) : bool * World :=
  if lockHeld w then (false, w) else (true, with_lock w true).

(** Modelled from the spec: releasing the Leader Lock, whose package
    [lock] is not part of the sources at hand. *)
Definition Unlock (w : World) : World := with_lock w false.

(** The polling loop [for { ok = Lock(); if ok { break }; Sleep }],
    cut after [fuel] rounds. *)
Fixpoint acquire (fuel : nat) (w : World) : option World :=
  match fuel with
  | O => None
  | S n =>
      let '(ok, w') := Lock w in
      if ok then Some w' else acquire n w'
  end.

(** The outcome of a read of the hash: [redis.Nil] when the field is
    absent, or another failure of the store. *)
Inductive redisError : Type := redis_Nil | redis_Failure.

(** [HGet(key, uid)] followed by [FromString]: the record, or the zero
    record with [redis.Nil] when the field is absent, or the zero
    record with another error when the read fails ([FromString] of the
    empty text leaves the zero record). *)
Definition HGet (w : World) (uid : string) : periodTask * option redisError :=
  if hgetFails w uid then (zeroTask, Some redis_Failure)
  else
    match store w !! uid with
    | Some t => (t, None)
    | None => (zeroTask, Some redis_Nil)
    end.

(** [HSet(key, uid, text)], the text being that of the record [t]: a
    write that fails leaves the hash as it was. *)
Definition HSet (w : World) (uid : string) (t : periodTask) : World * option redisError :=
  if hsetFails w uid then (w, Some redis_Failure)
  else (with_store w (<[uid := t]> (store w)), None).

Definition HDel (w : World) (uid : string) : World :=
  with_store w (delete uid (store w)).

(** A pipeline is the list of its queued writes, applied in order by [Exec]. *)
Definition Exec (w : World) (p : list (string * periodTask)) : World :=
  with_store w (fold_left (fun s kv => <[kv.1 := kv.2]> s) p (store w)).

End Shared.

(** ** The worker *)

Definition Attempt : Type := (asynq.Submission * option error)%type.

Section WorkerOps.
Context `{CL : CronLibrary} `{QE : QueueEngine} `{HC : HttpClient} `{JS : JsonCodec}.

(** [getNext]; [now] is the reading of [carbon.Now()]. *)
Definition getNext (now : Z) (expr : string) (timestamp : Z) : Z * option error :=
  match cronexpr_Parse expr with
  | None => (0, Some (ErrCollaborator 0))
  | Some e =>
      let t := if 0 <? timestamp then timestamp else now in
      (cronexpr_Next e t, None)
  end.

(** The task and the options [Worker.Once] hands to [Enqueue]. *)
Definition Once_build (wk : Worker) (ro : RunOptions) : asynq.Submission :=
  let t := asynq.NewTask (run_category ro +:+ ".once") (run_payload ro)
             [asynq.TaskID (run_uid ro)] in
  let taskOpts :=
    [asynq.Queue (group (ops wk));
     asynq.MaxRetry (maxRetry (ops wk));
     asynq.Timeout (Seconds (run_timeout ro))] in
  let taskOpts :=
    if 0 <? run_maxRetry ro
    then taskOpts ++ [asynq.MaxRetry (run_maxRetry ro)]
    else taskOpts in
  let taskOpts :=
    if 0 <? run_retention ro
    then taskOpts ++ [asynq.Retention (Seconds (run_retention ro))]
    else taskOpts ++ [asynq.Retention (Seconds (retention (ops wk)))] in
  let taskOpts :=
    match run_in ro, run_at ro with
    | Some d, _ => taskOpts ++ [asynq.ProcessIn d]
    | None, Some a => taskOpts ++ [asynq.ProcessAt a]
    | None, None =>
        if run_now ro then taskOpts ++ [asynq.ProcessIn Second] else taskOpts
    end in
  {| asynq.task := t; asynq.callOpts := taskOpts |}.

(** [Worker.Once] *)
Definition Once (wk : Worker) (ro : RunOptions) (w : World) : World * option error :=
  if String.eqb (run_uid ro) "" then (w, Some ErrUuidNil)
  else
    let '(q, err) := client_Enqueue (queue w) (Once_build wk ro) in
    (with_queue w q, err).

(** [Worker.Cron] *)
Definition Cron (wk : Worker) (now : Z) (ro : RunOptions) (w : World) : World * option error :=
  if String.eqb (run_uid ro) "" then (w, Some ErrUuidNil)
  else
    let '(next, err) := getNext now (run_expr ro) 0 in
    match err with
    | Some _ => (w, Some ErrExprInvalid)
    | None =>
        let t := {| Expr := run_expr ro;
                    Name := run_category ro +:+ ".cron";
                    Uid := run_uid ro;
                    Payload := run_payload ro;
                    Next := next;
                    Processed := 0;
                    MaxRetry := run_maxRetry ro;
                    Timeout := run_timeout ro |} in
        let '(w', e) := HSet w (run_uid ro) (reread t) in
        match e with
        | Some _ => (w', Some ErrSaveCron)
        | None => (w', None)
        end
    end.

(** [Worker.Remove] *)
Definition Remove (wk : Worker) (fuel : nat) (uid : string) (w : World)
  : option (World * option error) :=
  match acquire fuel w with
  | None => None
  | Some w1 =>
      let w2 := HDel w1 uid in
      let '(q, err) := inspector_DeleteTask (queue w2) (group (ops wk)) uid in
      Some (Unlock (with_queue w2 q), err)
  end.

(** The critical section of [Worker.processed]. *)
Definition processed_locked (uid : string) (w : World) : World :=
  let '(item, e) := HGet w uid in
  match e with
  | Some redis_Nil => w
  | _ => (HSet w uid (set_Processed item (wrap64 (Processed item + 1)))).1
  end.

(** [Worker.processed] *)
Definition processed (fuel : nat) (uid : string) (w : World) : option World :=
  match acquire fuel w with
  | None => None
  | Some w1 => Some (Unlock (processed_locked uid w1))
  end.

(** [periodTaskHandler.httpCallback] *)
Definition httpCallback (wk : Worker) (payload : envelope.Payload) : option error :=
  match http_Do (callback (ops wk)) payload with
  | inr err => Some err
  | inl status =>
      if status =? StatusOK then None else Some ErrHttpCallbackInvalidStatusCode
  end.

(** What the queue engine hands to the handler: the task and the id
    it was enqueued under ([t.ResultWriter().TaskID()]). *)
Record Delivery : Type := {
  delivered : asynq.Task;
  deliveredID : string
}.

(** The delivery of a submission the queue engine accepted. *)
Definition deliver (s : asynq.Submission) : option Delivery :=
  match asynq.taskIDOf s with
  | Some id => Some {| delivered := asynq.task s; deliveredID := id |}
  | None => None
  end.

Definition envelopeOf (t : Delivery) : envelope.Payload :=
  {| envelope.Category := asynq.Type_ (delivered t);
     envelope.Uid := deliveredID t;
     envelope.Body := asynq.Payload (delivered t) |}.

(** [periodTaskHandler.ProcessTask] *)
Definition ProcessTask (wk : Worker) (fuel : nat) (t : Delivery) (w : World)
  : option (World * option error) :=
  let payload := envelopeOf t in
  let err :=
    match handler (ops wk) with
    | Some h => h payload
    | None =>
        if negb (String.eqb (callback (ops wk)) "")
        then httpCallback wk payload
        else None
    end in
  match processed fuel (envelope.Uid payload) w with
  | None => None
  | Some w' => Some (w', err)
  end.


(** The number of deliveries of a sequence that carry the id [k]. *)
Definition hits (k : string) (ts : list Delivery) : Z :=
  Z.of_nat (length (List.filter (fun t => String.eqb k (deliveredID t)) ts)).

(** *** The scan tick *)

(** The body of the loop of [Worker.scan] up to the call of
    [Enqueue]: the submission built for a record, and the occurrence
    computed for the following cycle. *)
Definition scan_build (wk : Worker) (now : Z) (item : periodTask)
  : asynq.Submission * Z :=
  let '(next, _) := getNext now (Expr item) (Next item) in
  let t := asynq.NewTask (Name item) (Payload item) [asynq.TaskID (Uid item)] in
  let taskOpts :=
    [asynq.Queue (group (ops wk));
     asynq.MaxRetry (maxRetry (ops wk));
     asynq.Timeout (Seconds (Timeout item))] in
  let taskOpts :=
    if 0 <? MaxRetry item
    then taskOpts ++ [asynq.MaxRetry (MaxRetry item)]
    else taskOpts in
  let diff := wrap64 (next - Next item) in
  let taskOpts :=
    if 10 <? diff then
      let retention := Z.quot diff 3 in
      let retention := if 600 <? diff then 600 else retention in
      taskOpts ++ [asynq.Retention (Seconds retention)]
    else taskOpts in
  let taskOpts := taskOpts ++ [asynq.ProcessAt (Next item)] in
  ({| asynq.task := t; asynq.callOpts := taskOpts |}, next).


(** The loop of [Worker.scan] over the entries [m] of the hash, in
    the order the [range] statement visits them: the state of the
    queue engine after the loop, the writes queued in the pipeline
    and the calls of [Enqueue] with their results. *)
Fixpoint scan_loop (wk : Worker) (now : Z) (m : list (string * periodTask)) (q : Q)
  : Q * list (string * periodTask) * list Attempt :=
  match m with
  | [] => (q, [], [])
  | (_, item) :: m' =>
      let '(sub, next) := scan_build wk now item in
      let '(q1, err) := client_Enqueue q sub in
      let '(q2, p, log) := scan_loop wk now m' q1 in
      match err with
      | None => (q2, (Uid item, set_Next item next) :: p, (sub, err) :: log)
      | Some _ => (q2, p, (sub, err) :: log)
      end
  end.

(** The critical section of [Worker.scan]. *)
Definition scan_locked (wk : Worker) (now : Z) (m : list (string * periodTask)) (w : World)
  : World * list Attempt :=
  let '(q, p, log) := scan_loop wk now m (queue w) in
  (Exec (with_queue w q) p, log).

(** [Worker.scan], the entries being visited in the order [m]. *)
Definition scan_over (wk : Worker) (now : Z) (m : list (string * periodTask)) (w : World)
  : World * list Attempt :=
  let '(ok, w1) := Lock w in
  if negb ok then (w, [])
  else
    let '(w2, log) := scan_locked wk now m w1 in
    (Unlock w2, log).

Definition HGetAll (w : World) : list (string * periodTask) :=
  map_to_list (store w).

(** [Worker.scan] *)
Definition scan (wk : Worker) (now : Z) (w : World) : World * list Attempt :=
  scan_over wk now (HGetAll w) w.

(** *** The archive reaper *)

(** The unix time of the zero [time.Time]. *)
Definition zeroTime : Z := -62135596800.

Definition IsZero (t : Z) : bool := t =? zeroTime.
Definition AddMinutes (t n : Z) : Z := t + n * 60.
Definition AddHours (t n : Z) : Z := t + n * 3600.
Definition Gt (a b : Z) : bool := b <? a.

(** The body of the loop of [Worker.clearArchived]: the value of
    [flag] for an archived task. *)
Definition clearArchived_flag (now : Z) (w : World) (item : asynq.TaskInfo) : bool :=
  let last := asynq.LastFailedAt item in
  if negb (IsZero last) && (asynq.Retried item <? asynq.MaxRetry_of item) then false
  else
    let uid := asynq.ID item in
    if HasSuffix (asynq.Type_of item) ".cron" then
      let '(task, e) := HGet w uid in
      match e with
      | Some redis_Nil => false
      | _ =>
          let '(next, _) := getNext now (Expr task) (Next task) in
          let diff := wrap64 (next - Next task) in
          if diff <=? 60 then Gt now (AddMinutes last 5)
          else if diff <=? 600 then Gt now (AddMinutes last 30)
          else if diff <=? 3600 then Gt now (AddHours last 2)
          else Gt now (AddHours last 5)
      end
    else Gt now (AddMinutes last 5).

Fixpoint clearArchived_loop (wk : Worker) (now : Z) (l : list asynq.TaskInfo) (w : World)
  : World * list string :=
  match l with
  | [] => (w, [])
  | item :: l' =>
      if clearArchived_flag now w item then
        let '(q, _) := inspector_DeleteTask (queue w) (group (ops wk)) (asynq.ID item) in
        let '(w', deleted) := clearArchived_loop wk now l' (with_queue w q) in
        (w', asynq.ID item :: deleted)
      else clearArchived_loop wk now l' w
  end.

(** [Worker.clearArchived]: the world after the run and the ids
    handed to [DeleteTask]. *)
Definition clearArchived (wk : Worker) (now : Z) (w : World) : World * list string :=
  match inspector_ListArchivedTasks (queue w) (group (ops wk)) with
  | inr _ => (w, [])
  | inl l => clearArchived_loop wk now l w
  end.



(** *** Replicas ticking against one shared world *)

(** Where a replica is in its scan tick: before [Lock], between
    [Lock] and [Unlock], or past the tick. *)
Inductive pc : Type := Idle | Critical | Finished.

Definition tick_step (wk : Worker) (now : Z) (p : pc) (w : World)
  : pc * World * list Attempt :=
  match p with
  | Idle =>
      let '(ok, w1) := Lock w in
      if negb ok then (Finished, w, []) else (Critical, w1, [])
  | Critical =>
      let '(w2, log) := scan_locked wk now (HGetAll w) w in
      (Finished, Unlock w2, log)
  | Finished => (Finished, w, [])
  end.




End WorkerOps.

(** ** The names a worker keeps its state under *)

(** [New]: the key of the hash of records, [ops.group + "." +
    ops.redisPeriodKey], and the key of the lock, that key followed by
    [.lock]. *)
Definition New_periodKey (group redisPeriodKey : string) : string :=
  group +:+ "." +:+ redisPeriodKey.

Definition New_lockKey (group redisPeriodKey : string) : string :=
  New_periodKey group redisPeriodKey +:+ ".lock".

(** ** Well-formed stores *)

(** Every record is filed under its own uid, as [Worker.Cron] files it. *)
Definition keyed (s : gmap string periodTask) : Prop :=
  forall k v, s !! k = Some v -> Uid v = k.

(** ** The logger handed to the ORM (package [log] under plugins/gorm) *)

Module gormlog.

(** The levels of the ORM's logger, an integer type. *)
Definition Silent : Z := 1.
Definition Error : Z := 2.
Definition Warn : Z := 3.
Definition Info : Z := 4.

(** The colour codes of the ORM's logger. *)
Definition esc (code : string) : string := String (Ascii.ascii_of_nat 27) code.
Definition Reset : string := esc "[0m".
Definition Green : string := esc "[32m".
Definition Yellow : string := esc "[33m".
Definition BlueBold : string := esc "[34;1m".
Definition RedBold : string := esc "[31;1m".

(** The levels of the logging package, whose declaration is not part
    of the sources at hand: the six that [levelToGorm] names, and any
    other. *)
Inductive Level : Type :=
| FatalLevel | ErrorLevel | WarnLevel | InfoLevel | DebugLevel | TraceLevel
| OtherLevel (n : Z).

(** The options of the logger, whose declaration is not part of the
    sources at hand, with the fields the logger reads; [slow] is a
    duration in nanoseconds. *)
Record Options : Type := {
  level_of : Level;
  slow : Z;
  colorful : bool
}.

Record gormLogger : Type := {
  ops : Options;
  level : Z;
  normalStr : string;
  normalErrStr : string;
  slowStr : string;
  slowErrStr : string
}.

(** [levelToGorm] *)
Definition levelToGorm (l : Level) : Z :=
  match l with
  | FatalLevel | ErrorLevel => Error
  | WarnLevel => Warn
  | InfoLevel | DebugLevel | TraceLevel => Info
  | OtherLevel _ => Silent
  end.

Definition nl : string := String (Ascii.ascii_of_nat 10) "".

(** [New], the options being those the option functions have set. *)
Definition New (o : Options) : gormLogger :=
  let plain :=
    ("[%.3fms] [rows:%v] %s",
     "[%.3fms(slow)] [rows:%v] %s",
     "%s" +:+ nl +:+ "[%.3fms] [rows:%v] %s",
     "%s" +:+ nl +:+ "[%.3fms(slow)] [rows:%v] %s") in
  let coloured :=
    (Green +:+ "[%.3fms] " +:+ Reset +:+ BlueBold +:+ "[rows:%v]" +:+ Reset +:+ " %s",
     Yellow +:+ "[%.3fms(slow)] " +:+ Reset +:+ BlueBold +:+ "[rows:%v]" +:+ Reset +:+ " %s",
     RedBold +:+ "%s" +:+ nl +:+ Reset +:+ Green +:+ "[%.3fms] " +:+ Reset +:+ BlueBold
       +:+ "[rows:%v]" +:+ Reset +:+ " %s",
     RedBold +:+ "%s" +:+ nl +:+ Reset +:+ Yellow +:+ "[%.3fms(slow)] " +:+ Reset
       +:+ BlueBold +:+ "[rows:%v]" +:+ Reset +:+ " %s") in
  let '(normal, slowS, normalErr, slowErr) := if colorful o then coloured else plain in
  {| ops := o;
     level := levelToGorm (level_of o);
     normalStr := normal;
     normalErrStr := normalErr;
     slowStr := slowS;
     slowErrStr := slowErr |}.

(** [gormLogger.LogMode] *)
Definition LogMode (l : gormLogger) (lv : Z) : gormLogger :=
  {| ops := ops l; level := lv;
     normalStr := normalStr l; normalErrStr := normalErrStr l;
     slowStr := slowStr l; slowErrStr := slowErrStr l |}.

(** The errors of a statement: the ORM's [ErrRecordNotFound], another
    error, or an error that wraps one. *)
Inductive gerror : Type :=
| ErrRecordNotFound
| ErrOther (code : Z)
| Wrapped (message : string) (cause : gerror).

(** [errors.Is(err, gorm.ErrRecordNotFound)] *)
Fixpoint IsRecordNotFound (e : gerror) : bool :=
  match e with
  | ErrRecordNotFound => true
  | ErrOther _ => false
  | Wrapped _ cause => IsRecordNotFound cause
  end.

(** What the logger writes: the severity, and the format with its
    arguments as they go to [fmt.Sprintf]; the elapsed time is carried
    in nanoseconds. *)
Inductive severity : Type := AtInfo | AtWarn | AtError.

Inductive arg : Type :=
| AErr (e : gerror)
| AElapsed (ns : Z)
| ARow (row : string)
| ASql (sql : string).

Record Entry : Type := {
  sev : severity;
  format : string;
  args : list arg
}.

(** [gormLogger.Info], [gormLogger.Warn], [gormLogger.Error] *)
Definition LogInfo (l : gormLogger) (fmt : string) (a : list arg) : option Entry :=
  if Info <=? level l then Some {| sev := AtInfo; format := fmt; args := a |} else None.

Definition LogWarn (l : gormLogger) (fmt : string) (a : list arg) : option Entry :=
  if Warn <=? level l then Some {| sev := AtWarn; format := fmt; args := a |} else None.

Definition LogError (l : gormLogger) (fmt : string) (a : list arg) : option Entry :=
  if Error <=? level l then Some {| sev := AtError; format := fmt; args := a |} else None.

(** [gormLogger.Trace]; [hidden] is the value the context holds under
    [HiddenSql] when it is a boolean, [elapsed] the time since [begin]
    in nanoseconds, [fc] the statement and the number of rows. *)
Definition Trace (l : gormLogger) (hidden : option bool) (elapsed : Z)
           (fc : string * Z) (err : option gerror) : option Entry :=
  if Silent <? level l then
    let '(sql, rows) := fc in
    let row := if -1 <? rows then pretty rows else "-" in
    let hiddenSql := match hidden with Some v => v | None => false end in
    let sql := if hiddenSql then "(sql is hidden)" else sql in
    let slowed := (0 <? slow (ops l)) && (slow (ops l) <? elapsed) in
    match err with
    | Some e =>
        if (Error <=? level l) && negb (IsRecordNotFound e) then
          if slowed
          then LogWarn l (slowErrStr l) [AErr e; AElapsed elapsed; ARow row; ASql sql]
          else LogError l (normalErrStr l) [AErr e; AElapsed elapsed; ARow row; ASql sql]
        else if (Warn <=? level l) && slowed then
          LogWarn l (slowStr l) [AElapsed elapsed; ARow row; ASql sql]
        else if level l =? Info then
          LogInfo l (normalStr l) [AElapsed elapsed; ARow row; ASql sql]
        else None
    | None =>
        if (Warn <=? level l) && slowed then
          LogWarn l (slowStr l) [AElapsed elapsed; ARow row; ASql sql]
        else if level l =? Info then
          LogInfo l (normalStr l) [AElapsed elapsed; ARow row; ASql sql]
        else None
    end
  else None.

End gormlog.

(** ** The environment overlay of the configuration (package [env]) *)

Module envresolver.

(** What the resolver takes from the Go runtime as given: the type
    [float64] with [strconv.ParseFloat], and [strings.ToUpper]. *)
Class Runtime : Type := {
  float64 : Type;
  ParseFloat : string -> option float64;
  ToUpper : string -> string
}.

(** [strconv.ParseBool] *)
Definition ParseBool (s : string) : option bool :=
  if existsb (String.eqb s) ["1"; "t"; "T"; "TRUE"; "true"; "True"] then Some true
  else if existsb (String.eqb s) ["0"; "f"; "F"; "FALSE"; "false"; "False"] then Some false
  else None.

Definition digit (c : Ascii.ascii) : option Z :=
  let n := Z.of_nat (Ascii.nat_of_ascii c) in
  if (48 <=? n) && (n <=? 57) then Some (n - 48) else None.

Fixpoint digits (acc : Z) (s : string) : option Z :=
  match s with
  | EmptyString => Some acc
  | String c s' =>
      match digit c with
      | Some d => digits (acc * 10 + d) s'
      | None => None
      end
  end.

(** [strconv.Atoi], an [int] being 64 bits wide: an optional sign, then
    one decimal digit or more, the value within the range of [int]. *)
Definition Atoi (s : string) : option Z :=
  match s with
  | EmptyString => None
  | String c rest =>
      let negative := Ascii.eqb c "-"%char in
      let body := if negative || Ascii.eqb c "+"%char then rest else s in
      match body with
      | EmptyString => None
      | _ =>
          match digits 0 body with
          | None => None
          | Some n =>
              let v := if negative then - n else n in
              if (- 2 ^ 63 <=? v) && (v <? 2 ^ 63) then Some v else None
          end
      end
  end.

(** [strconv.Itoa] of an index. *)
Definition Itoa (i : nat) : string := pretty i.

Section Resolver.
Context `{RT : Runtime}.

(** The values of a decoded configuration. *)
#[local] Unset Elimination Schemes.
Inductive value : Type :=
| VString (s : string)
| VBool (b : bool)
| VInt (n : Z)
| VFloat (f : float64)
| VMap (m : list (string * value))
| VList (l : list value)
| VOther.
#[local] Set Elimination Schemes.

(** The options of the resolver, whose declaration is not part of the
    sources at hand, with the fields the resolver reads; [loaded]
    tells whether a callback is set. *)
Record Options : Type := {
  prefix : string;
  separator : string;
  loaded : bool
}.

(** The environment: [syscall.Getenv]. *)
Definition Env : Type := string -> option string.

(** The calls of the [loaded] callback, in order. *)
Definition Calls : Type := list (string * value).

(** [getBoolEnv], [getIntEnv], [getFloat64Env] *)
Definition getBoolEnv (env : Env) (key : string) : bool * bool :=
  match env key with
  | Some envV =>
      match ParseBool envV with
      | Some envVV => (envVV, true)
      | None => (false, false)
      end
  | None => (false, false)
  end.

Definition getIntEnv (env : Env) (key : string) : Z * bool :=
  match env key with
  | Some envV =>
      match Atoi envV with
      | Some envVV => (envVV, true)
      | None => (0, false)
      end
  | None => (0, false)
  end.

Definition getFloat64Env (env : Env) (key : string) : option float64 :=
  match env key with
  | Some envV => ParseFloat envV
  | None => None
  end.

(** The variable read for a scalar, by the type of the scalar: the
    value found, if one is. *)
Definition fromEnv (env : Env) (key : string) (v : value) : option value :=
  match v with
  | VString _ => VString <$> env key
  | VBool _ => let '(b, ok) := getBoolEnv env key in if ok then Some (VBool b) else None
  | VInt _ => let '(n, ok) := getIntEnv env key in if ok then Some (VInt n) else None
  | VFloat _ => VFloat <$> getFloat64Env env key
  | _ => None
  end.

(** The key of an entry: the prefix and the name joined by the
    separator, the name alone under an empty prefix, in upper case. *)
Definition entryKey (sep pre k : string) : string :=
  ToUpper (if String.eqb pre "" then k else pre +:+ sep +:+ k).

(** The key of an item of a list. *)
Definition indexKey (sep key : string) (i : nat) : string :=
  key +:+ sep +:+ Itoa i.

(** The loop over the entries of a map; an error ends it. *)
Definition forEntries (f : string -> value -> value * Calls * option error)
  : list (string * value) -> list (string * value) * Calls * option error :=
  fix loop (m : list (string * value)) :=
    match m with
    | [] => ([], [], None)
    | (k, x) :: rest =>
        match f k x with
        | (x', c, Some e) => ((k, x') :: rest, c, Some e)
        | (x', c, None) =>
            let '(rest', c', e') := loop rest in
            ((k, x') :: rest', c ++ c', e')
        end
    end.

(** The loop over the items of a list, from the index [i] on. *)
Definition forItems (f : nat -> value -> value * Calls * option error)
  : nat -> list value -> list value * Calls * option error :=
  fix loop (i : nat) (l : list value) :=
    match l with
    | [] => ([], [], None)
    | x :: rest =>
        match f i x with
        | (x', c, Some e) => (x' :: rest, c, Some e)
        | (x', c, None) =>
            let '(rest', c', e') := loop (S i) rest in
            (x' :: rest', c ++ c', e')
        end
    end.

(** The body of the loop of [envResolver] for an entry whose key is
    [key] and whose value is [v]: the value the entry holds
    afterwards, the calls of the callback and the error. For a map it
    is [envResolver] with [key] for prefix. *)
Fixpoint resolveValue (env : Env) (sep : string) (cb : bool) (key : string) (v : value)
  {struct v} : value * Calls * option error :=
  match v with
  | VMap m =>
      let '(m', c, e) :=
        forEntries (fun k x => resolveValue env sep cb (entryKey sep key k) x) m in
      (VMap m', c, e)
  | VList l =>
      let '(l', c, e) :=
        forItems (fun i item =>
                    match item with
                    | VList _ | VOther => (item, [], None)
                    | _ => resolveValue env sep cb (indexKey sep key i) item
                    end) 0 l in
      (VList l', c, e)
  | VOther => (v, [], None)
  | _ =>
      match fromEnv env key v with
      | Some v1 => (v1, if cb then [(key, v1)] else [], None)
      | None => (v, [], None)
      end
  end.

(** The body of the loop over the items of a list. *)
Definition itemStep (env : Env) (sep : string) (cb : bool) (key : string)
           (i : nat) (item : value) : value * Calls * option error :=
  match item with
  | VList _ | VOther => (item, [], None)
  | _ => resolveValue env sep cb (indexKey sep key i) item
  end.

(** [envResolver] *)
Definition envResolver (env : Env) (o : Options) (sub : list (string * value))
  : list (string * value) * Calls * option error :=
  forEntries (fun k x =>
                resolveValue env (separator o) (loaded o)
                             (entryKey (separator o) (prefix o) k) x) sub.

(** Two values of the same shape: the same type at every place, the
    same names in the same order in every map, the same length for
    every list. *)
Fixpoint sameShape (a b : value) {struct a} : bool :=
  match a, b with
  | VString _, VString _ | VBool _, VBool _ | VInt _, VInt _
  | VFloat _, VFloat _ | VOther, VOther => true
  | VMap m, VMap m' =>
      (fix go (m : list (string * value)) (m' : list (string * value)) :=
         match m, m' with
         | [], [] => true
         | (k, x) :: r, (k', x') :: r' => String.eqb k k' && sameShape x x' && go r r'
         | _, _ => false
         end) m m'
  | VList l, VList l' =>
      (fix go (l : list value) (l' : list value) :=
         match l, l' with
         | [], [] => true
         | x :: r, x' :: r' => sameShape x x' && go r r'
         | _, _ => false
         end) l l'
  | _, _ => false
  end.

End Resolver.

End envresolver.

(** ** Concrete collaborators, for evaluating runs *)

Module Fragment.

(** A fragment of the expression language: the expressions that fire
    on every multiple of a period of seconds. *)
Inductive expression : Type :=
| Every (period : positive)
| NewYear2020.

(** The expressions of the fragment: four that fire on every multiple
    of a period, and one, with a year field, whose only occurrence is
    the first instant of 2020 (in UTC). *)
Definition parse (s : string) : option expression :=
  if String.eqb s "* * * * * * *" then Some (Every 1)
  else if String.eqb s "* * * * *" then Some (Every 60)
  else if String.eqb s "*/5 * * * *" then Some (Every 300)
  else if String.eqb s "*/15 * * * *" then Some (Every 900)
  else if String.eqb s "0 0 1 1 * 2020" then Some NewYear2020
  else None.

(** [Expression.Next] followed by [Unix]: the library answers with the
    zero time when no occurrence is left after the reference. *)
Definition next (e : expression) (t : Z) : Z :=
  match e with
  | Every period => (t / Z.pos period + 1) * Z.pos period
  | NewYear2020 => if t <? 1577836800 then 1577836800 else zeroTime
  end.

Definition cron : CronLibrary :=
  {| Expression := expression; cronexpr_Parse := parse; cronexpr_Next := next |}.

(** The coercion of [json.Marshal]: a byte that does not start a valid
    UTF-8 sequence is replaced by the replacement character, U+FFFD. *)
Definition byte (c : ascii) : Z := Z.of_nat (nat_of_ascii c).

Definition between (lo hi : Z) (c : ascii) : bool :=
  (lo <=? byte c) && (byte c <=? hi).

Definition cont (c : ascii) : bool := between 128 191 c.

Definition two_bytes (a b : ascii) : bool := between 194 223 a && cont b.

Definition three_bytes (a b c : ascii) : bool :=
  ((between 224 224 a && between 160 191 b)
   || ((between 225 236 a || between 238 239 a) && cont b)
   || (between 237 237 a && between 128 159 b))
  && cont c.

Definition four_bytes (a b c d : ascii) : bool :=
  ((between 240 240 a && between 144 191 b)
   || (between 241 243 a && cont b)
   || (between 244 244 a && between 128 143 b))
  && cont c && cont d.

Definition replacement : string :=
  String (ascii_of_nat 239) (String (ascii_of_nat 191) (String (ascii_of_nat 189) "")).

Fixpoint toValidUTF8 (s : string) : string :=
  match s with
  | EmptyString => EmptyString
  | String a r =>
      if byte a <? 128 then String a (toValidUTF8 r)
      else
        match r with
        | String b r2 =>
            if two_bytes a b then String a (String b (toValidUTF8 r2))
            else
              match r2 with
              | String c r3 =>
                  if three_bytes a b c
                  then String a (String b (String c (toValidUTF8 r3)))
                  else
                    match r3 with
                    | String d r4 =>
                        if four_bytes a b c d
                        then String a (String b (String c (String d (toValidUTF8 r4))))
                        else replacement +:+ toValidUTF8 r
                    | EmptyString => replacement +:+ toValidUTF8 r
                    end
              | EmptyString => replacement +:+ toValidUTF8 r
              end
        | EmptyString => replacement
        end
  end.

Definition json : JsonCodec := {| ToValidUTF8 := toValidUTF8 |}.

(** A queue engine that keeps the ids of its tasks and the archived
    tasks, and refuses a task whose id it already holds. *)
Record state : Type := {
  ids : list string;
  archived : list asynq.TaskInfo
}.

Definition ErrTaskIDConflict : error := ErrCollaborator 1.

Definition enqueue (q : state) (s : asynq.Submission) : state * option error :=
  match asynq.taskIDOf s with
  | None => (q, Some (ErrCollaborator 2))
  | Some id =>
      if existsb (String.eqb id) (ids q)
      then (q, Some ErrTaskIDConflict)
      else ({| ids := id :: ids q; archived := archived q |}, None)
  end.

Definition deleteTask (q : state) (queue id : string) : state * option error :=
  ({| ids := filter (fun x => negb (String.eqb id x)) (ids q);
      archived := filter (fun t => negb (String.eqb id (asynq.ID t))) (archived q) |},
   None).

Definition engine : QueueEngine :=
  {| Q := state;
     client_Enqueue := enqueue;
     inspector_DeleteTask := deleteTask;
     inspector_ListArchivedTasks := fun q _ => inl (archived q) |}.

Definition http : HttpClient :=
  {| http_Do := fun _ _ => inl 200 |}.

Definition worker : Worker :=
  {| ops := {| group := "task"; retention := 60; maxRetry := 3; timeout := 10;
               handler := None; callback := ""; clearArchivedInterval := 300 |} |}.

Definition registration (uid expr : string) : RunOptions :=
  {| run_uid := uid; run_category := "mail"; run_payload := "p1";
     run_expr := expr; run_in := None; run_at := None; run_now := false;
     run_retention := 0; run_maxRetry := 0; run_timeout := 60 |}.

Definition record (uid expr : string) (next : Z) : periodTask :=
  {| Expr := expr; Name := "mail.cron"; Uid := uid; Payload := "p1";
     Next := next; Processed := 0; MaxRetry := 0; Timeout := 60 |}.

Definition world (s : gmap string periodTask) (held : bool) (q : state) : @World engine :=
  @Build_World engine s held q (fun _ => false) (fun _ => false).

Definition idle : state := {| ids := []; archived := [] |}.

(** A record that fires on the quarter hours, its next occurrence at 900. *)
Definition quarter : periodTask := record "a" "*/15 * * * *" 900.

(** A record that sets no timeout of its own. *)
Definition untimed : periodTask :=
  {| Expr := "* * * * *"; Name := "mail.cron"; Uid := "b"; Payload := "p2";
     Next := 120; Processed := 0; MaxRetry := 0; Timeout := 0 |}.

Definition one : gmap string periodTask := <["a" := quarter]> ∅.
Definition two : gmap string periodTask := <["b" := untimed]> one.

Definition w_empty : @World engine := world ∅ false idle.
Definition w_one : @World engine := world one false idle.
Definition w_two : @World engine := world two false idle.


(** An archived one-off job that has used up its retries and failed a
    minute before the clock reads 1060. *)
Definition exhausted : asynq.TaskInfo :=
  {| asynq.ID := "x"; asynq.Type_of := "mail.once"; asynq.LastFailedAt := 1000;
     asynq.Retried := 3; asynq.MaxRetry_of := 3 |}.

(** An archived one-off job with retries left. *)
Definition retrying : asynq.TaskInfo :=
  {| asynq.ID := "y"; asynq.Type_of := "mail.once"; asynq.LastFailedAt := 1000;
     asynq.Retried := 1; asynq.MaxRetry_of := 3 |}.

(** The delivery of a job enqueued under the id [uid]. *)
Definition delivery (uid : string) : Delivery :=
  {| delivered := asynq.NewTask "mail.cron" "p1" [asynq.TaskID uid];
     deliveredID := uid |}.

(** A worker with a handler that fails, and a callback beside it. *)
Definition worker_handled : Worker :=
  {| ops := {| group := "task"; retention := 60; maxRetry := 3; timeout := 10;
               handler := Some (fun _ => Some (ErrCollaborator 7));
               callback := "http://callback"; clearArchivedInterval := 300 |} |}.

(** An HTTP client whose every request is answered with the status 500. *)
Definition http_down : HttpClient :=
  {| http_Do := fun _ _ => inl 500 |}.

(** A logger at the error level with a threshold of 200 ms for slow statements. *)
Definition logger : gormlog.gormLogger :=
  gormlog.New {| gormlog.level_of := gormlog.ErrorLevel;
                 gormlog.slow := 200000000;
                 gormlog.colorful := false |}.

(** [strings.ToUpper] on ASCII text. *)
Definition upperChar (c : ascii) : ascii :=
  let n := nat_of_ascii c in
  if ((97 <=? n) && (n <=? 122))%nat then ascii_of_nat (n - 32) else c.

Fixpoint upper (s : string) : string :=
  match s with
  | EmptyString => EmptyString
  | String c r => String (upperChar c) (upper r)
  end.

(** A runtime without floating-point variables. *)
Definition runtime : envresolver.Runtime :=
  {| envresolver.float64 := Z;
     envresolver.ParseFloat := fun _ => None;
     envresolver.ToUpper := upper |}.

(** An environment that sets the address and the debug flag of the application. *)
Definition environment : string -> option string :=
  fun k =>
    if String.eqb k "APP_ADDR" then Some "0.0.0.0:8080"
    else if String.eqb k "APP_DEBUG" then Some "yes"
    else None.

Definition nothing_set : string -> option string := fun _ => None.

Definition overlay : @envresolver.Options :=
  {| envresolver.prefix := "app"; envresolver.separator := "_";
     envresolver.loaded := true |}.

Definition config : list (string * @envresolver.value runtime) :=
  [("addr", envresolver.VString "127.0.0.1:80");
   ("debug", envresolver.VBool false);
   ("tags", envresolver.VList [envresolver.VString "a"; envresolver.VInt 1])].

Definition w_archive : @World engine :=
  world one false {| ids := []; archived := [exhausted; retrying] |}.




(** The quarter-hour record after five completions, in a store whose
    reads of the field [a] fail and whose writes go through. *)
Definition w_readfail : @World engine :=
  @Build_World engine (<["a" := set_Processed quarter 5]> ∅) false idle
               (String.eqb "a") (fun _ => false).

(** A uid that is no valid UTF-8: the single byte 255. *)
Definition stray : string := String (ascii_of_nat 255) "".


End Fragment.

(** * Properties *)

(** ** Arithmetic and option lists *)

Lemma wrap64_id (z : Z) : int64_range z -> wrap64 z = z.
Proof.
  unfold int64_range, wrap64. intros Hz.
  rewrite Z.mod_small by lia. lia.
Qed.

Lemma Seconds_exact (n : Z) : -9223372036 <= n <= 9223372036 -> Seconds n = n * Second.
Proof.
  intros Hn. unfold Seconds, Second. apply wrap64_id. unfold int64_range. lia.
Qed.

Lemma lastOption_app {A : Type} (pick : asynq.Option -> option A) (l1 l2 : list asynq.Option) :
  asynq.lastOption pick (l1 ++ l2) =
  match asynq.lastOption pick l2 with
  | Some a => Some a
  | None => asynq.lastOption pick l1
  end.
Proof.
  induction l1 as [|o l1 IH]; simpl.
  - destruct (asynq.lastOption pick l2); reflexivity.
  - rewrite IH. destruct (asynq.lastOption pick l2); reflexivity.
Qed.

Section Proofs.
Context `{CL : CronLibrary} `{QE : QueueEngine} `{HC : HttpClient} `{JS : JsonCodec}.

(** *** The cron evaluator *)


Lemma getNext_unparsed (now : Z) (expr : string) (t : Z) :
  cronexpr_Parse expr = None ->
  getNext now expr t = (0, Some (ErrCollaborator 0)).
Proof. intros He. unfold getNext. rewrite He. reflexivity. Qed.


(** *** The submission built by the scan tick *)


Lemma scan_build_task (wk : Worker) (now : Z) (item : periodTask) :
  asynq.task (scan_build wk now item).1 =
  asynq.NewTask (Name item) (Payload item) [asynq.TaskID (Uid item)].
Proof.
  unfold scan_build. destruct (getNext now (Expr item) (Next item)); reflexivity.
Qed.

Lemma scan_build_taskID (wk : Worker) (now : Z) (item : periodTask) :
  asynq.taskIDOf (scan_build wk now item).1 = Some (Uid item).
Proof.
  unfold scan_build. destruct (getNext now (Expr item) (Next item)) as [next err].
  unfold asynq.taskIDOf, asynq.allOpts. simpl.
  destruct (0 <? MaxRetry item); destruct (10 <? wrap64 (next - Next item));
    reflexivity.
Qed.


Lemma scan_build_options (wk : Worker) (now : Z) (item : periodTask) :
  let sub := (scan_build wk now item).1 in
  asynq.queueOf sub = Some (group (ops wk)) /\
  asynq.maxRetryOf sub =
    Some (if 0 <? MaxRetry item then MaxRetry item else maxRetry (ops wk)) /\
  asynq.timeoutOf sub = Some (Seconds (Timeout item)).
Proof.
  unfold scan_build. destruct (getNext now (Expr item) (Next item)) as [next err].
  unfold asynq.queueOf, asynq.maxRetryOf, asynq.timeoutOf, asynq.allOpts. simpl.
  destruct (0 <? MaxRetry item); destruct (10 <? wrap64 (next - Next item));
    repeat split; reflexivity.
Qed.

(** *** The loop of the scan tick *)

Lemma scan_loop_log (wk : Worker) (now : Z) (m : list (string * periodTask)) (q : Q) :
  map fst (scan_loop wk now m q).2 = map (fun kv => (scan_build wk now kv.2).1) m.
Proof.
  revert q. induction m as [|[k item] m IH]; intros q; simpl; [reflexivity|].
  destruct (scan_build wk now item) as [sub next].
  destruct (client_Enqueue q sub) as [q1 err].
  specialize (IH q1).
  destruct (scan_loop wk now m q1) as [[q2 p] log].
  destruct err; simpl in *; f_equal; exact IH.
Qed.




Lemma scan_loop_origin (wk : Worker) (now : Z) (m : list (string * periodTask)) (q : Q)
      (k : string) (v : periodTask) :
  (k, v) ∈ (scan_loop wk now m q).1.2 ->
  exists kv, kv ∈ m /\ k = Uid kv.2 /\
             v = set_Next kv.2 (scan_build wk now kv.2).2 /\
             ((scan_build wk now kv.2).1, None) ∈ (scan_loop wk now m q).2.
Proof.
  revert q. induction m as [|[k0 item] m IH]; intros q; simpl.
  - intros H. inversion H.
  - destruct (scan_build wk now item) as [sub next] eqn:Hb.
    destruct (client_Enqueue q sub) as [q1 err].
    specialize (IH q1).
    destruct (scan_loop wk now m q1) as [[q2 p] log].
    destruct err as [x|]; simpl in *; intros Hin.
    + destruct (IH Hin) as (kv & Hkv & Hk & Hv & Hlog).
      exists kv. split; [right; exact Hkv|]. split; [exact Hk|].
      split; [exact Hv|]. right; exact Hlog.
    + apply elem_of_cons in Hin as [Heq|Hin].
      * inversion Heq; subst. exists (k0, item). simpl. rewrite Hb. simpl.
        repeat split; left.
      * destruct (IH Hin) as (kv & Hkv & Hk & Hv & Hlog).
        exists kv. split; [right; exact Hkv|]. split; [exact Hk|].
      split; [exact Hv|]. right; exact Hlog.
Qed.

(** *** The pipeline *)



(** *** One tick with the lock free *)

Lemma scan_over_free (wk : Worker) (now : Z) (m : list (string * periodTask)) (w : World) :
  lockHeld w = false ->
  scan_over wk now m w =
    ({| store := fold_left (fun s kv => <[kv.1 := kv.2]> s)
                   (scan_loop wk now m (queue w)).1.2 (store w);
        lockHeld := false;
        queue := (scan_loop wk now m (queue w)).1.1;
        hgetFails := hgetFails w;
        hsetFails := hsetFails w |},
     (scan_loop wk now m (queue w)).2).
Proof.
  intros Hfree. unfold scan_over, Lock. rewrite Hfree. simpl.
  unfold scan_locked. simpl.
  destruct (scan_loop wk now m (queue w)) as [[q p] log]. reflexivity.
Qed.

Lemma scan_over_held (wk : Worker) (now : Z) (m : list (string * periodTask)) (w : World) :
  lockHeld w = true -> scan_over wk now m w = (w, []).
Proof. intros Hheld. unfold scan_over, Lock. rewrite Hheld. reflexivity. Qed.




Lemma scan_build_clock (wk : Worker) (now now' : Z) (item : periodTask) :
  0 < Next item -> scan_build wk now' item = scan_build wk now item.
Proof.
  intros Hpos. unfold scan_build, getNext.
  destruct (cronexpr_Parse (Expr item)); [|reflexivity].
  destruct (Z.ltb_spec 0 (Next item)); [reflexivity | lia].
Qed.






(** C3, as amended. With [diff] the difference, in 64-bit arithmetic,
    between the newly computed occurrence and the stored [next]: no
    retention option when [diff <= 10], a retention of [diff / 3]
    seconds when [10 < diff <= 600], and a retention of 600 seconds
    when [diff > 600]. *)
Theorem scan_retention (wk : Worker) (now : Z) (item : periodTask) :
  let diff := wrap64 ((scan_build wk now item).2 - Next item) in
  asynq.retentionOf (scan_build wk now item).1 =
    if diff <=? 10 then None
    else if diff <=? 600 then Some (Seconds (diff / 3))
    else Some (Seconds 600).
Proof.
  unfold scan_build. destruct (getNext now (Expr item) (Next item)) as [next err].
  simpl. set (diff := wrap64 (next - Next item)).
  unfold asynq.retentionOf, asynq.allOpts. simpl.
  destruct (Z.ltb_spec 10 diff) as [H10|H10];
    destruct (Z.leb_spec diff 10) as [H10'|H10']; try lia.
  - destruct (Z.ltb_spec 600 diff) as [H6|H6];
      destruct (Z.leb_spec diff 600) as [H6'|H6']; try lia;
      destruct (0 <? MaxRetry item); simpl; try reflexivity.
    all: rewrite Z.quot_div_nonneg by lia; reflexivity.
  - destruct (0 <? MaxRetry item); reflexivity.
Qed.

(** C5, as amended. Every submission a scan tick makes is the one
    built from a visited record: it targets the queue of the group,
    carries the [maxRetry] of the record when that is positive and
    the default of the group otherwise, and carries the [timeout] of
    the record, whatever its value. *)
Theorem scan_submission_options (wk : Worker) (now : Z)
        (m : list (string * periodTask)) (w : World) :
  Forall (fun a : Attempt =>
            exists item, item ∈ map snd m /\
              a.1 = (scan_build wk now item).1 /\
              asynq.queueOf a.1 = Some (group (ops wk)) /\
              asynq.maxRetryOf a.1 =
                Some (if 0 <? MaxRetry item then MaxRetry item
                      else maxRetry (ops wk)) /\
              asynq.timeoutOf a.1 = Some (Seconds (Timeout item)))
         (scan_over wk now m w).2.
Proof.
  apply Forall_forall. intros [sub err] Hin. simpl.
  destruct (lockHeld w) eqn:Hl.
  - rewrite (scan_over_held _ _ _ _ Hl) in Hin. inversion Hin.
  - rewrite (scan_over_free _ _ _ _ Hl) in Hin. simpl in Hin.
    apply (list_elem_of_fmap_2 fst) in Hin. simpl in Hin.
    rewrite scan_loop_log in Hin.
    apply list_elem_of_fmap in Hin as [[k item] [-> Hkv]]. simpl.
    exists item. split.
    { apply (list_elem_of_fmap_2 snd) in Hkv. exact Hkv. }
    split; [reflexivity|]. apply scan_build_options.
Qed.

(** *** The processed counter *)




Lemma acquire_free (fuel : nat) (w : World) :
  lockHeld w = false -> acquire (S fuel) w = Some (with_lock w true).
Proof. intros Hfree. simpl. unfold Lock. rewrite Hfree. reflexivity. Qed.

Lemma acquire_held (fuel : nat) (w : World) :
  lockHeld w = true -> acquire fuel w = None.
Proof.
  intros Hheld. induction fuel as [|n IH]; simpl; [reflexivity|].
  unfold Lock. rewrite Hheld. exact IH.
Qed.


Lemma ProcessTask_held (wk : Worker) (fuel : nat) (t : Delivery) (w : World) :
  lockHeld w = true -> ProcessTask wk fuel t w = None.
Proof.
  intros Hheld. unfold ProcessTask, processed.
  rewrite (acquire_held _ _ Hheld). reflexivity.
Qed.


Lemma hits_nonneg (k : string) (ts : list Delivery) : 0 <= hits k ts.
Proof. unfold hits. lia. Qed.


(** C6, the code at the failing input. With the lock free, when the
    read of the record fails with an error other than [redis.Nil] and
    the write goes through, the update of the processed counter
    returns having written, under the uid, the zero record with
    [processed] 1, in place of the record that was stored or where
    none was. *)
Theorem processed_read_failure (fuel : nat) (uid : string) (w : World)
  (Hfree : lockHeld w = false)
  (Hread : hgetFails w uid = true)
  (Hwrite : hsetFails w uid = false) :
  exists w',
    processed (S fuel) uid w = Some w' /\
    store w' !! uid =
      Some {| Expr := ""; Name := ""; Uid := ""; Payload := "";
              Next := 0; Processed := 1; MaxRetry := 0; Timeout := 0 |}.
Proof.
  unfold processed. rewrite (acquire_free _ _ Hfree).
  eexists. split; [reflexivity|].
  unfold processed_locked, HGet, HSet. simpl. rewrite Hread. simpl. rewrite Hwrite.
  simpl. apply lookup_insert_eq.
Qed.


(** *** The stored [next] *)

Lemma Cron_registered (wk : Worker) (now : Z) (ro : RunOptions) (w w' : World) :
  Cron wk now ro w = (w', None) ->
  exists e,
    run_uid ro <> "" /\
    cronexpr_Parse (run_expr ro) = Some e /\
    hsetFails w (run_uid ro) = false /\
    w' = with_store w
           (<[run_uid ro :=
                reread {| Expr := run_expr ro;
                          Name := run_category ro +:+ ".cron";
                          Uid := run_uid ro;
                          Payload := run_payload ro;
                          Next := cronexpr_Next e now;
                          Processed := 0;
                          MaxRetry := run_maxRetry ro;
                          Timeout := run_timeout ro |}]> (store w)).
Proof.
  unfold Cron. destruct (String.eqb_spec (run_uid ro) "") as [|Hne]; [discriminate|].
  unfold getNext.
  destruct (cronexpr_Parse (run_expr ro)) as [e|]; [|discriminate].
  unfold HSet. destruct (hsetFails w (run_uid ro)); [discriminate|].
  intros Heq. inversion Heq; subst. exists e. repeat split. exact Hne.
Qed.


(** *** Registration *)

(** C9. [Cron] and [Once] called with an empty uid return
    [ErrUuidNil], and [Cron] called with an expression the library
    does not parse returns a validation error; in each case the
    world (the store, the lock and the queue engine) is the one the
    call started from. *)
Theorem registration_validates (wk : Worker) (now : Z) (ro : RunOptions) (w : World) :
  (run_uid ro = "" ->
   Cron wk now ro w = (w, Some ErrUuidNil) /\
   Once wk ro w = (w, Some ErrUuidNil)) /\
  (cronexpr_Parse (run_expr ro) = None ->
   Cron wk now ro w =
     (w, Some (if String.eqb (run_uid ro) "" then ErrUuidNil else ErrExprInvalid))).
Proof.
  split.
  - intros Huid. unfold Cron, Once. rewrite Huid. simpl. split; reflexivity.
  - intros Hexpr. unfold Cron.
    destruct (String.eqb (run_uid ro) ""); [reflexivity|].
    rewrite (getNext_unparsed _ _ _ Hexpr). reflexivity.
Qed.

Lemma Once_build_taskID (wk : Worker) (ro : RunOptions) :
  asynq.taskIDOf (Once_build wk ro) = Some (run_uid ro).
Proof.
  unfold Once_build, asynq.taskIDOf, asynq.allOpts.
  destruct (run_in ro), (run_at ro), (run_now ro),
    (0 <? run_retention ro), (0 <? run_maxRetry ro); reflexivity.
Qed.

(** C10, as amended. The envelope of a job registered by [Once]
    carries the category of the registration followed by [.once], the
    uid and the payload of the registration. After any registration by
    [Cron] that succeeded, the record filed under the uid yields, at
    every later scan and whatever its [next] and [processed] have
    become, a job whose envelope carries the category followed by
    [.cron], the uid and the payload as the JSON encoding of the
    record gives them back, coerced to valid UTF-8. *)
Theorem envelope_category (wk : Worker) (now : Z) (ro : RunOptions) (w : World) :
  (exists d, deliver (Once_build wk ro) = Some d /\
             envelopeOf d =
               {| envelope.Category := run_category ro +:+ ".once";
                  envelope.Uid := run_uid ro;
                  envelope.Body := run_payload ro |}) /\
  (forall w', Cron wk now ro w = (w', None) ->
   exists item, store w' !! run_uid ro = Some item /\
     forall (later n c : Z),
     exists d,
       deliver (scan_build wk later (set_Processed (set_Next item n) c)).1 = Some d /\
       envelopeOf d =
         {| envelope.Category := ToValidUTF8 (run_category ro +:+ ".cron");
            envelope.Uid := ToValidUTF8 (run_uid ro);
            envelope.Body := ToValidUTF8 (run_payload ro) |}).
Proof.
  split.
  - unfold deliver. rewrite Once_build_taskID. eexists. split; reflexivity.
  - intros w' Hcron.
    destruct (Cron_registered _ _ _ _ _ Hcron) as (e & _ & He & _ & ->).
    eexists. split; [simpl; apply lookup_insert_eq|].
    intros later n c. unfold deliver. rewrite scan_build_taskID, scan_build_task.
    simpl. eexists. split; reflexivity.
Qed.

(** *** The archive reaper *)

Lemma clearArchived_flag_queue (now : Z) (w : World) (q : Q) (item : asynq.TaskInfo) :
  clearArchived_flag now (with_queue w q) item = clearArchived_flag now w item.
Proof. reflexivity. Qed.

Lemma clearArchived_loop_deleted (wk : Worker) (now : Z) (l : list asynq.TaskInfo) (w : World) :
  (clearArchived_loop wk now l w).2 =
  map asynq.ID (List.filter (clearArchived_flag now w) l).
Proof.
  revert w. induction l as [|item l IH]; intros w; simpl; [reflexivity|].
  destruct (clearArchived_flag now w item) eqn:Hflag.
  - destruct (inspector_DeleteTask (queue w) (group (ops wk)) (asynq.ID item)) as [q err].
    specialize (IH (with_queue w q)).
    destruct (clearArchived_loop wk now l (with_queue w q)) as [w' deleted].
    simpl in *. rewrite IH. f_equal.
  - apply IH.
Qed.



(** *** Replicas and the lock *)



(** A tick of [scan] is the two steps of a replica, one after the other. *)
Lemma scan_as_steps (wk : Worker) (now : Z) (w : World) :
  lockHeld w = false ->
  scan wk now w =
    ((tick_step wk now Critical (with_lock w true)).1.2,
     (tick_step wk now Critical (with_lock w true)).2).
Proof.
  intros Hfree. unfold scan, scan_over, tick_step, Lock. rewrite Hfree. simpl.
  unfold HGetAll. simpl.
  destruct (scan_locked wk now (map_to_list (store w)) (with_lock w true)).
  reflexivity.
Qed.













End Proofs.

(** * Further properties of the worker *)

Section MoreProofs.
Context `{CL : CronLibrary} `{QE : QueueEngine} `{JS : JsonCodec}.

(** ** One-off registration *)

(** X1. The submission of [Once] targets the queue of the group under
    the uid of the registration; it carries the [maxRetry] and the
    retention of the registration when these are positive and the
    defaults of the group otherwise, and the timeout of the
    registration. *)
Theorem Once_options (wk : Worker) (ro : RunOptions) :
  let sub := Once_build wk ro in
  asynq.queueOf sub = Some (group (ops wk)) /\
  asynq.taskIDOf sub = Some (run_uid ro) /\
  asynq.maxRetryOf sub =
    Some (if 0 <? run_maxRetry ro then run_maxRetry ro else maxRetry (ops wk)) /\
  asynq.retentionOf sub =
    Some (Seconds (if 0 <? run_retention ro then run_retention ro
                   else retention (ops wk))) /\
  asynq.timeoutOf sub = Some (Seconds (run_timeout ro)).
Proof.
  unfold Once_build, asynq.queueOf, asynq.taskIDOf, asynq.maxRetryOf,
    asynq.retentionOf, asynq.timeoutOf, asynq.allOpts.
  destruct (run_in ro), (run_at ro), (run_now ro),
    (0 <? run_retention ro), (0 <? run_maxRetry ro);
    repeat split; reflexivity.
Qed.

(** X2. The schedule of [Once]: a relative delay wins over an absolute
    instant, which wins over the immediate flag; with the flag alone
    the job is due in one second, and with none of the three the
    submission carries no schedule at all. *)
Theorem Once_schedule (wk : Worker) (ro : RunOptions) :
  let sub := Once_build wk ro in
  match run_in ro, run_at ro with
  | Some d, _ => asynq.processInOf sub = Some d /\ asynq.processAtOf sub = None
  | None, Some a => asynq.processAtOf sub = Some a /\ asynq.processInOf sub = None
  | None, None =>
      asynq.processAtOf sub = None /\
      asynq.processInOf sub = if run_now ro then Some Second else None
  end.
Proof.
  unfold Once_build, asynq.processInOf, asynq.processAtOf, asynq.allOpts.
  destruct (run_in ro), (run_at ro), (run_now ro),
    (0 <? run_retention ro), (0 <? run_maxRetry ro);
    repeat split; reflexivity.
Qed.

(** ** Removal *)

Lemma Remove_free (wk : Worker) (fuel : nat) (uid : string) (w : World) :
  lockHeld w = false ->
  Remove wk (S fuel) uid w =
    Some ({| store := delete uid (store w);
             lockHeld := false;
             queue := (inspector_DeleteTask (queue w) (group (ops wk)) uid).1;
             hgetFails := hgetFails w;
             hsetFails := hsetFails w |},
          (inspector_DeleteTask (queue w) (group (ops wk)) uid).2).
Proof.
  intros Hfree. unfold Remove. rewrite (acquire_free _ _ Hfree). simpl.
  destruct (inspector_DeleteTask (queue w) (group (ops wk)) uid). reflexivity.
Qed.

(** X3. With the lock free [Remove] returns: the record of the uid is
    gone from the hash whatever the queue engine answers to
    [DeleteTask], the other records are untouched, the error is the
    one of [DeleteTask] and the lock is free again. While another
    holds the lock [Remove] does not return, however long it polls. *)
Theorem Remove_deletes (wk : Worker) (fuel : nat) (uid : string) (w : World)
  (Hfree : lockHeld w = false) :
  (exists w',
      Remove wk (S fuel) uid w =
        Some (w', (inspector_DeleteTask (queue w) (group (ops wk)) uid).2) /\
      store w' !! uid = None /\
      (forall k, k <> uid -> store w' !! k = store w !! k) /\
      lockHeld w' = false) /\
  (forall n, Remove wk n uid (with_lock w true) = None).
Proof.
  split.
  - eexists. split; [apply Remove_free; exact Hfree|]. simpl.
    split; [apply lookup_delete_eq|]. split; [|reflexivity].
    intros k Hne. apply lookup_delete_ne. congruence.
  - intros n. unfold Remove. rewrite acquire_held by reflexivity. reflexivity.
Qed.

Lemma keyed_delete (uid : string) (s : gmap string periodTask) :
  keyed s -> keyed (delete uid s).
Proof. intros Hk k v Hkv. apply lookup_delete_Some in Hkv as [_ Hkv]. eauto. Qed.

(** X4. After [Remove] of a uid, a scan tick submits nothing under that
    uid, in a hash whose records are filed under their own uid. *)
Theorem Remove_then_scan (wk : Worker) (fuel : nat) (now : Z) (uid : string)
        (w w' : World) (err : option error) (m : list (string * periodTask))
  (Hkeyed : keyed (store w))
  (Hremove : Remove wk fuel uid w = Some (w', err))
  (Hvisit : m ≡ₚ map_to_list (store w')) :
  Forall (fun a : Attempt => asynq.taskIDOf a.1 <> Some uid)
         (scan_over wk now m w').2.
Proof.
  destruct fuel as [|fuel]; [discriminate|].
  destruct (lockHeld w) eqn:Hl.
  { unfold Remove in Hremove. rewrite (acquire_held _ _ Hl) in Hremove. discriminate. }
  rewrite (Remove_free _ _ _ _ Hl) in Hremove. inversion Hremove; subst; clear Hremove.
  simpl in Hvisit.
  rewrite scan_over_free by reflexivity. simpl.
  apply Forall_forall. intros [sub e] Hin. simpl.
  apply (list_elem_of_fmap_2 fst) in Hin. simpl in Hin.
  rewrite scan_loop_log in Hin.
  apply list_elem_of_fmap in Hin as [[k item] [-> Hkv]]. simpl.
  rewrite scan_build_taskID. intros Heq. inversion Heq as [Huid].
  rewrite Hvisit in Hkv. apply elem_of_map_to_list in Hkv.
  pose proof (keyed_delete uid _ Hkeyed _ _ Hkv) as Hfiled.
  rewrite Huid in Hfiled. subst k. rewrite lookup_delete_eq in Hkv. discriminate.
Qed.

(** X5. A dispatch completion that arrives after [Remove] of its uid
    returns. It leaves the world as [Remove] left it when its read of
    the hash answers [redis.Nil], and also when its write fails; when
    the read fails with another error and the write goes through, it
    files the zero record with [processed] 1 under the uid again. *)
Theorem Remove_then_processed (wk : Worker) (fuel fuel' : nat) (uid : string)
        (w w' : World) (err : option error)
  (Hremove : Remove wk fuel uid w = Some (w', err)) :
  exists w'',
    processed (S fuel') uid w' = Some w'' /\
    if hgetFails w' uid && negb (hsetFails w' uid)
    then store w'' !! uid =
           Some {| Expr := ""; Name := ""; Uid := ""; Payload := "";
                   Next := 0; Processed := 1; MaxRetry := 0; Timeout := 0 |}
    else w'' = w'.
Proof.
  destruct fuel as [|fuel]; [discriminate|].
  destruct (lockHeld w) eqn:Hl.
  { unfold Remove in Hremove. rewrite (acquire_held _ _ Hl) in Hremove. discriminate. }
  rewrite (Remove_free _ _ _ _ Hl) in Hremove. inversion Hremove; subst; clear Hremove.
  unfold processed. rewrite acquire_free by reflexivity.
  eexists. split; [reflexivity|].
  unfold processed_locked, HGet, HSet. simpl.
  destruct (hgetFails w uid); simpl.
  - destruct (hsetFails w uid); simpl; [reflexivity | apply lookup_insert_eq].
  - rewrite lookup_delete_eq. reflexivity.
Qed.

(** ** The dispatcher *)

(** X6. The HTTP callback succeeds exactly when the request went
    through and the response status is 200. *)
Theorem httpCallback_ok `{HC : HttpClient} (wk : Worker) (payload : envelope.Payload) :
  httpCallback wk payload = None <->
  http_Do (callback (ops wk)) payload = inl StatusOK.
Proof.
  unfold httpCallback.
  destruct (http_Do (callback (ops wk)) payload) as [status|e].
  - destruct (Z.eqb_spec status StatusOK) as [->|Hne].
    + split; reflexivity.
    + split; [discriminate | intros Heq; inversion Heq; contradiction].
  - split; discriminate.
Qed.

(** X7. A configured handler takes the job whether or not a callback
    is configured too: the outcome is the error of the handler on the
    envelope of the job and is the same under any HTTP client. *)
Theorem ProcessTask_prefers_handler (HC1 HC2 : HttpClient) (wk : Worker) (fuel : nat)
        (t : Delivery) (w : World) (h : envelope.Payload -> option error)
  (Hhandler : handler (ops wk) = Some h)
  (Hfree : lockHeld w = false) :
  @ProcessTask QE HC1 wk (S fuel) t w = @ProcessTask QE HC2 wk (S fuel) t w /\
  snd <$> @ProcessTask QE HC1 wk (S fuel) t w = Some (h (envelopeOf t)).
Proof.
  unfold ProcessTask, processed. rewrite Hhandler.
  rewrite (acquire_free _ _ Hfree). simpl. split; reflexivity.
Qed.

(** ** The scan tick *)




(** X10. A scan tick leaves the lock as it found it: it releases the
    lock it acquired, and it does not release the lock of another
    holder. *)
Theorem scan_lock_discipline (wk : Worker) (now : Z) (m : list (string * periodTask))
        (w : World) :
  lockHeld (scan_over wk now m w).1 = lockHeld w.
Proof.
  destruct (lockHeld w) eqn:Hl.
  - rewrite (scan_over_held _ _ _ _ Hl). exact Hl.
  - rewrite (scan_over_free _ _ _ _ Hl). reflexivity.
Qed.

(** X11. The retention a scan tick attaches is never more than ten
    minutes and never less than three seconds. *)
Theorem scan_retention_bounds (wk : Worker) (now : Z) (item : periodTask) (r : Z)
  (Hr : asynq.retentionOf (scan_build wk now item).1 = Some r) :
  3 * Second <= r <= 600 * Second.
Proof.
  unfold scan_build in Hr. destruct (getNext now (Expr item) (Next item)) as [next err].
  simpl in Hr. set (diff := wrap64 (next - Next item)) in *.
  unfold asynq.retentionOf, asynq.allOpts in Hr. simpl in Hr.
  destruct (Z.ltb_spec 10 diff) as [H10|H10].
  - destruct (Z.ltb_spec 600 diff) as [H6|H6];
      destruct (0 <? MaxRetry item); simpl in Hr; inversion Hr; subst; clear Hr.
    1,2: rewrite Seconds_exact by lia; unfold Second; lia.
    all: assert (Hq : 3 <= Z.quot diff 3 <= 200)
           by (rewrite Z.quot_div_nonneg by lia; split;
               [apply Z.div_le_lower_bound; lia | apply Z.div_le_upper_bound; lia]).
    all: rewrite Seconds_exact by lia; unfold Second; lia.
  - destruct (0 <? MaxRetry item); simpl in Hr; discriminate.
Qed.

(** ** Registration of a periodic task *)

(** X12. [Cron] with a uid and an expression that parses: when the
    write to the hash fails it returns [ErrSaveCron] and the world is
    as it was; otherwise it files the record under the uid, replacing
    what was there: its strings are those of the registration coerced
    to valid UTF-8, its [next] is the library's [Next] from the clock
    and its processed counter starts again at 0; the other records,
    the queue engine and the lock are untouched, and nothing is
    submitted. *)
Theorem Cron_upsert (wk : Worker) (now : Z) (ro : RunOptions) (w : World) (e : Expression)
  (Huid : run_uid ro <> "")
  (Hparse : cronexpr_Parse (run_expr ro) = Some e) :
  if hsetFails w (run_uid ro)
  then Cron wk now ro w = (w, Some ErrSaveCron)
  else
    exists w',
      Cron wk now ro w = (w', None) /\
      store w' =
        <[run_uid ro :=
            {| Expr := ToValidUTF8 (run_expr ro);
               Name := ToValidUTF8 (run_category ro +:+ ".cron");
               Uid := ToValidUTF8 (run_uid ro);
               Payload := ToValidUTF8 (run_payload ro);
               Next := cronexpr_Next e now;
               Processed := 0;
               MaxRetry := run_maxRetry ro;
               Timeout := run_timeout ro |}]> (store w) /\
      queue w' = queue w /\
      lockHeld w' = lockHeld w.
Proof.
  unfold Cron. apply String.eqb_neq in Huid. rewrite Huid.
  unfold getNext. rewrite Hparse. unfold HSet.
  destruct (hsetFails w (run_uid ro)); [reflexivity|].
  eexists. split; [reflexivity|]. repeat split.
Qed.

(** ** The archive reaper *)

Lemma clearArchived_loop_frame (wk : Worker) (now : Z) (l : list asynq.TaskInfo) (w : World) :
  store (clearArchived_loop wk now l w).1 = store w /\
  lockHeld (clearArchived_loop wk now l w).1 = lockHeld w.
Proof.
  revert w. induction l as [|item l IH]; intros w; simpl; [split; reflexivity|].
  destruct (clearArchived_flag now w item); [|apply IH].
  destruct (inspector_DeleteTask (queue w) (group (ops wk)) (asynq.ID item)) as [q err].
  specialize (IH (with_queue w q)).
  destruct (clearArchived_loop wk now l (with_queue w q)) as [w' deleted].
  exact IH.
Qed.

(** X13. The reaper works on the queue engine alone: it changes no
    record of the hash and does not touch the lock; when the listing
    of the archived jobs fails it deletes nothing and leaves the world
    as it was. *)
Theorem clearArchived_frame (wk : Worker) (now : Z) (w : World) :
  store (clearArchived wk now w).1 = store w /\
  lockHeld (clearArchived wk now w).1 = lockHeld w /\
  match inspector_ListArchivedTasks (queue w) (group (ops wk)) with
  | inr _ => clearArchived wk now w = (w, [])
  | inl l => length (clearArchived wk now w).2 <= length l
  end%nat.
Proof.
  unfold clearArchived.
  destruct (inspector_ListArchivedTasks (queue w) (group (ops wk))) as [l|err].
  - destruct (clearArchived_loop_frame wk now l w) as [Hs Hl].
    split; [exact Hs|]. split; [exact Hl|].
    rewrite clearArchived_loop_deleted, length_map. apply List.filter_length_le.
  - repeat split.
Qed.

Lemma clearArchived_flag_age (now : Z) (w : World) (item : asynq.TaskInfo) :
  clearArchived_flag now w item = true -> asynq.LastFailedAt item + 300 < now.
Proof.
  unfold clearArchived_flag, HGet, Gt, AddMinutes, AddHours.
  destruct (negb (IsZero (asynq.LastFailedAt item)) &&
            (asynq.Retried item <? asynq.MaxRetry_of item)); [discriminate|].
  destruct (HasSuffix (asynq.Type_of item) ".cron").
  - assert (Htier : forall task : periodTask,
              (let '(next, _) := getNext now (Expr task) (Next task) in
               if wrap64 (next - Next task) <=? 60
               then asynq.LastFailedAt item + 5 * 60 <? now
               else if wrap64 (next - Next task) <=? 600
                    then asynq.LastFailedAt item + 30 * 60 <? now
                    else if wrap64 (next - Next task) <=? 3600
                         then asynq.LastFailedAt item + 2 * 3600 <? now
                         else asynq.LastFailedAt item + 5 * 3600 <? now) = true ->
              asynq.LastFailedAt item + 300 < now).
    { intros task. destruct (getNext now (Expr task) (Next task)) as [next err].
      destruct (wrap64 (next - Next task) <=? 60);
        [|destruct (wrap64 (next - Next task) <=? 600);
          [|destruct (wrap64 (next - Next task) <=? 3600)]];
        rewrite Z.ltb_lt; lia. }
    destruct (hgetFails w (asynq.ID item)); [apply Htier|].
    destruct (store w !! asynq.ID item) as [task|]; [apply Htier | discriminate].
  - rewrite Z.ltb_lt. lia.
Qed.

(** X14. The reaper never deletes a job within five minutes of its last
    failure, and it deletes a periodic job only when the hash holds
    its record or the read of its record fails. *)
Theorem reaper_spares_recent (wk : Worker) (now : Z) (w : World) (uid : string)
  (Hdeleted : uid ∈ (clearArchived wk now w).2) :
  exists l item,
    inspector_ListArchivedTasks (queue w) (group (ops wk)) = inl l /\
    item ∈ l /\ asynq.ID item = uid /\
    asynq.LastFailedAt item + 300 < now /\
    (HasSuffix (asynq.Type_of item) ".cron" = true ->
     is_Some (store w !! uid) \/ hgetFails w uid = true).
Proof.
  unfold clearArchived in Hdeleted.
  destruct (inspector_ListArchivedTasks (queue w) (group (ops wk))) as [l|err];
    [|inversion Hdeleted].
  rewrite clearArchived_loop_deleted in Hdeleted.
  apply list_elem_of_fmap in Hdeleted as [item [-> Hin]].
  apply list_elem_of_In, filter_In in Hin as [Hin Hflag].
  exists l, item. split; [reflexivity|].
  split; [apply list_elem_of_In; exact Hin|]. split; [reflexivity|].
  split; [apply (clearArchived_flag_age now w); exact Hflag|].
  intros Hcron. unfold clearArchived_flag, HGet in Hflag. rewrite Hcron in Hflag.
  destruct (negb (IsZero (asynq.LastFailedAt item)) &&
            (asynq.Retried item <? asynq.MaxRetry_of item)); [discriminate|].
  destruct (hgetFails w (asynq.ID item)); [right; reflexivity|].
  destruct (store w !! asynq.ID item); [left; eexists; reflexivity | discriminate].
Qed.

End MoreProofs.

(** ** The names of the state *)

Lemma list_ascii_of_string_app (a b : string) :
  list_ascii_of_string (a +:+ b) = list_ascii_of_string a ++ list_ascii_of_string b.
Proof. induction a as [|c a IH]; simpl; [reflexivity|]. f_equal. exact IH. Qed.

Lemma append_inv_tail (a b t : string) : a +:+ t = b +:+ t -> a = b.
Proof.
  intros Heq. apply (f_equal list_ascii_of_string) in Heq.
  rewrite !list_ascii_of_string_app in Heq. apply app_inv_tail in Heq.
  rewrite <- (string_of_list_ascii_of_string a), <- (string_of_list_ascii_of_string b).
  f_equal. exact Heq.
Qed.

(** X15. Workers of two groups that share the base key of the hash keep
    their records and their locks apart: the key of the hash and the
    key of the lock coincide only when the groups do. *)
Theorem New_keys_apart (g1 g2 key : string) :
  (New_periodKey g1 key = New_periodKey g2 key <-> g1 = g2) /\
  (New_lockKey g1 key = New_lockKey g2 key <-> g1 = g2).
Proof.
  unfold New_lockKey, New_periodKey. split; split; try (intros ->; reflexivity).
  - intros Heq. apply (append_inv_tail _ _ ("." +:+ key)). exact Heq.
  - intros Heq. apply append_inv_tail in Heq.
    apply (append_inv_tail _ _ ("." +:+ key)). exact Heq.
Qed.

(** * Properties of the ORM logger *)

Section GormLog.
Import gormlog.

(** X16. The lines a logger built by [New] writes, by the level of its
    options: errors alone at the fatal and error levels, errors and
    warnings at the warning level, all three at the info, debug and
    trace levels, and nothing at any other level. *)
Theorem New_gates (o : Options) (fmt : string) (a : list arg) :
  let l := New o in
  let on (x : option Entry) := match x with Some _ => true | None => false end in
  (on (LogError l fmt a), on (LogWarn l fmt a), on (LogInfo l fmt a)) =
  match level_of o with
  | FatalLevel | ErrorLevel => (true, false, false)
  | WarnLevel => (true, true, false)
  | InfoLevel | DebugLevel | TraceLevel => (true, true, true)
  | OtherLevel _ => (false, false, false)
  end.
Proof.
  unfold New. destruct (colorful o); destruct (level_of o); reflexivity.
Qed.

(** X17. A statement that ends in the not-found error of the ORM, bare
    or wrapped, is traced exactly as a statement that succeeded. *)
Theorem Trace_not_found (l : gormLogger) (hidden : option bool) (elapsed : Z)
        (fc : string * Z) (e : gerror)
  (Hnf : IsRecordNotFound e = true) :
  Trace l hidden elapsed fc (Some e) = Trace l hidden elapsed fc None.
Proof.
  unfold Trace. rewrite Hnf. simpl negb. rewrite andb_false_r. reflexivity.
Qed.

(** X18. With the hidden flag set in the context, what is traced does
    not depend on the text of the statement, and a line that is
    written carries the placeholder in its place. *)
Theorem Trace_hides_sql (l : gormLogger) (elapsed : Z) (sql sql' : string) (rows : Z)
        (err : option gerror) :
  Trace l (Some true) elapsed (sql, rows) err
    = Trace l (Some true) elapsed (sql', rows) err /\
  match Trace l (Some true) elapsed (sql, rows) err with
  | Some en => ASql "(sql is hidden)" ∈ args en /\ forall s, ASql s ∈ args en ->
                                                             s = "(sql is hidden)"
  | None => True
  end.
Proof.
  split; [reflexivity|].
  unfold Trace, LogWarn, LogError, LogInfo.
  destruct (Silent <? level l); [|exact I].
  assert (Hin3 : forall x y, ASql "(sql is hidden)" ∈ [x; y; ASql "(sql is hidden)"]).
  { intros. do 2 right. left. }
  assert (Hin4 : forall x y z, ASql "(sql is hidden)" ∈ [x; y; z; ASql "(sql is hidden)"]).
  { intros. do 3 right. left. }
  assert (Hall3 : forall a b s, ASql s ∈ [AElapsed a; ARow b; ASql "(sql is hidden)"] ->
                                s = "(sql is hidden)").
  { intros a b s Hs. repeat (apply elem_of_cons in Hs as [Hs|Hs]; [inversion Hs; auto|]).
    inversion Hs. }
  assert (Hall4 : forall e a b s,
             ASql s ∈ [AErr e; AElapsed a; ARow b; ASql "(sql is hidden)"] ->
             s = "(sql is hidden)").
  { intros e a b s Hs. repeat (apply elem_of_cons in Hs as [Hs|Hs]; [inversion Hs; auto|]).
    inversion Hs. }
  destruct err as [e|];
    repeat match goal with
           | |- context [if ?c then _ else _] => destruct c
           end; simpl; auto; (split; [auto | intros s; eauto]).
Qed.

(** X19. A statement that failed, with an error other than not-found,
    is traced exactly when the level reaches the error level and, if
    the statement was slow, the warning level too: at the error level
    a failed statement that was also slow leaves no line. The line is
    a warning for a slow statement and an error otherwise. *)
Theorem Trace_failure (l : gormLogger) (hidden : option bool) (elapsed : Z)
        (fc : string * Z) (e : gerror)
  (Hreal : IsRecordNotFound e = false) :
  let slowed := (0 <? slow (ops l)) && (slow (ops l) <? elapsed) in
  match Trace l hidden elapsed fc (Some e) with
  | Some en =>
      Error <= level l /\ (slowed = true -> Warn <= level l) /\
      sev en = (if slowed then AtWarn else AtError) /\ AErr e ∈ args en
  | None => level l < Error \/ (slowed = true /\ level l < Warn)
  end.
Proof.
  intros slowed. unfold Trace, LogWarn, LogError, LogInfo. rewrite Hreal. simpl negb.
  fold slowed. unfold Silent, Error, Warn, Info in *.
  destruct fc as [sql rows].
  destruct (Z.ltb_spec 1 (level l)); [|left; lia].
  destruct (Z.leb_spec 2 (level l)); [|lia].
  simpl andb. destruct slowed.
  - destruct (Z.leb_spec 3 (level l)); simpl.
    + repeat split; auto; try lia. left.
    + right. split; [reflexivity | lia].
  - simpl. repeat split; auto; try lia; try discriminate. left.
Qed.

(** X20. A statement that succeeded is traced as a warning when it was
    slow and the level reaches the warning level, and otherwise as
    information at the info level exactly; at any other level,
    including those above info, it leaves no line. *)
Theorem Trace_success (l : gormLogger) (hidden : option bool) (elapsed : Z)
        (fc : string * Z) :
  let slowed := (0 <? slow (ops l)) && (slow (ops l) <? elapsed) in
  match Trace l hidden elapsed fc None with
  | Some en =>
      if slowed && (Warn <=? level l) then sev en = AtWarn
      else sev en = AtInfo /\ level l = Info
  | None => level l <> Info /\ (slowed = true -> level l < Warn)
  end.
Proof.
  intros slowed. unfold Trace, LogWarn, LogError, LogInfo.
  fold slowed. unfold Silent, Error, Warn, Info in *.
  destruct fc as [sql rows].
  destruct (Z.ltb_spec 1 (level l)).
  - destruct (Z.leb_spec 3 (level l)); destruct slowed; simpl; try reflexivity.
    + destruct (Z.eqb_spec (level l) 4) as [Heq|Hne].
      * rewrite Heq. simpl. split; reflexivity.
      * split; [exact Hne | discriminate].
    + destruct (Z.eqb_spec (level l) 4) as [Heq|Hne]; [lia|].
      split; [exact Hne | intros _; lia].
    + destruct (Z.eqb_spec (level l) 4) as [Heq|Hne]; [lia|].
      split; [exact Hne | discriminate].
  - split; [lia | intros _; lia].
Qed.

End GormLog.

(** * Properties of the environment overlay *)

Section EnvResolver.
Import envresolver.
Context `{RT : Runtime}.

Lemma value_induction (P : value -> Prop) :
  (forall s, P (VString s)) -> (forall b, P (VBool b)) -> (forall n, P (VInt n)) ->
  (forall f, P (VFloat f)) ->
  (forall m, Forall (fun kv => P kv.2) m -> P (VMap m)) ->
  (forall l, Forall P l -> P (VList l)) ->
  P VOther ->
  forall v, P v.
Proof.
  intros Hs Hb Hi Hf Hm Hl Ho. fix IH 1. intros [s|b|n|f|m|l|].
  - apply Hs.
  - apply Hb.
  - apply Hi.
  - apply Hf.
  - apply Hm. induction m as [|[k x] m IHm]; constructor; [apply IH | exact IHm].
  - apply Hl. induction l as [|x l IHl]; constructor; [apply IH | exact IHl].
  - apply Ho.
Qed.

Lemma forEntries_cons (f : string -> value -> value * Calls * option error)
      (k : string) (x : value) (rest : list (string * value)) :
  (f k x).2 = None ->
  forEntries f ((k, x) :: rest) =
    ((k, (f k x).1.1) :: (forEntries f rest).1.1,
     (f k x).1.2 ++ (forEntries f rest).1.2,
     (forEntries f rest).2).
Proof.
  intros He. simpl. destruct (f k x) as [[x' c] e]. simpl in He. subst e.
  destruct (forEntries f rest) as [[rest' c'] e']. reflexivity.
Qed.

Lemma forItems_cons (f : nat -> value -> value * Calls * option error)
      (i : nat) (x : value) (rest : list value) :
  (f i x).2 = None ->
  forItems f i (x :: rest) =
    ((f i x).1.1 :: (forItems f (S i) rest).1.1,
     (f i x).1.2 ++ (forItems f (S i) rest).1.2,
     (forItems f (S i) rest).2).
Proof.
  intros He. simpl. destruct (f i x) as [[x' c] e]. simpl in He. subst e.
  destruct (forItems f (S i) rest) as [[rest' c'] e']. reflexivity.
Qed.

Lemma resolveValue_map (env : Env) (sep : string) (cb : bool) (key : string)
      (m : list (string * value)) :
  resolveValue env sep cb key (VMap m) =
    (VMap (forEntries (fun k x => resolveValue env sep cb (entryKey sep key k) x) m).1.1,
     (forEntries (fun k x => resolveValue env sep cb (entryKey sep key k) x) m).1.2,
     (forEntries (fun k x => resolveValue env sep cb (entryKey sep key k) x) m).2).
Proof.
  simpl.
  destruct (forEntries (fun k x => resolveValue env sep cb (entryKey sep key k) x) m)
    as [[m' c] e]. reflexivity.
Qed.

Lemma resolveValue_list (env : Env) (sep : string) (cb : bool) (key : string)
      (l : list value) :
  resolveValue env sep cb key (VList l) =
    (VList (forItems (itemStep env sep cb key) 0 l).1.1,
     (forItems (itemStep env sep cb key) 0 l).1.2,
     (forItems (itemStep env sep cb key) 0 l).2).
Proof.
  simpl. unfold itemStep.
  destruct (forItems _ 0 l) as [[l' c] e]. reflexivity.
Qed.

Lemma resolveValue_scalar (env : Env) (sep : string) (cb : bool) (key : string) (v : value) :
  match v with VMap _ | VList _ | VOther => False | _ => True end ->
  resolveValue env sep cb key v =
    match fromEnv env key v with
    | Some v1 => (v1, if cb then [(key, v1)] else [], None)
    | None => (v, [], None)
    end.
Proof. destruct v; simpl; intros H; try contradiction; reflexivity. Qed.

Lemma resolveValue_no_error (env : Env) (sep : string) (cb : bool) (v : value) :
  forall key, (resolveValue env sep cb key v).2 = None.
Proof.
  induction v as [s|b|n|f|m IH|l IH|] using value_induction; intros key;
    try (rewrite resolveValue_scalar by exact I;
         destruct (fromEnv env key _); reflexivity);
    [| |reflexivity].
  - rewrite resolveValue_map. simpl.
    induction m as [|[k x] m IHm]; [reflexivity|].
    apply Forall_cons in IH as [Hx IH].
    rewrite forEntries_cons by apply Hx. simpl. apply IHm. exact IH.
  - rewrite resolveValue_list. simpl. generalize 0%nat.
    induction l as [|x l IHl]; intros i; [reflexivity|].
    apply Forall_cons in IH as [Hx IH].
    rewrite forItems_cons by (unfold itemStep; destruct x; try reflexivity; apply Hx).
    simpl. apply IHl. exact IH.
Qed.

Lemma itemStep_no_error (env : Env) (sep : string) (cb : bool) (key : string)
      (i : nat) (x : value) :
  (itemStep env sep cb key i x).2 = None.
Proof. unfold itemStep. destruct x; try reflexivity; apply resolveValue_no_error. Qed.

(** X21. The resolver never reports an error: a variable that is
    missing or whose text does not parse for the type of the entry is
    passed over. *)
Theorem envResolver_no_error (env : Env) (o : Options) (sub : list (string * value)) :
  (envResolver env o sub).2 = None.
Proof.
  unfold envResolver. induction sub as [|[k x] sub IH]; [reflexivity|].
  rewrite forEntries_cons by apply resolveValue_no_error. exact IH.
Qed.

Lemma resolveValue_empty (env : Env) (sep : string) (cb : bool) (v : value) :
  (forall k, env k = None) ->
  forall key, resolveValue env sep cb key v = (v, [], None).
Proof.
  intros Hempty.
  induction v as [s|b|n|f|m IH|l IH|] using value_induction; intros key;
    try (rewrite resolveValue_scalar by exact I; simpl;
         unfold getBoolEnv, getIntEnv, getFloat64Env; rewrite Hempty; reflexivity);
    [| |reflexivity].
  - rewrite resolveValue_map.
    assert (Hm : forEntries (fun k x => resolveValue env sep cb (entryKey sep key k) x) m
                 = (m, [], None)).
    { induction m as [|[k x] m IHm]; [reflexivity|].
      apply Forall_cons in IH as [Hx IH]. simpl in Hx.
      rewrite forEntries_cons by (rewrite Hx; reflexivity).
      rewrite (IHm IH), Hx. reflexivity. }
    rewrite Hm. reflexivity.
  - rewrite resolveValue_list.
    assert (Hl : forall i, forItems (itemStep env sep cb key) i l = (l, [], None)).
    { induction l as [|x l IHl]; intros i; [reflexivity|].
      apply Forall_cons in IH as [Hx IH].
      assert (Hstep : itemStep env sep cb key i x = (x, [], None)).
      { unfold itemStep. destruct x; try reflexivity; apply Hx. }
      rewrite forItems_cons by (rewrite Hstep; reflexivity).
      rewrite (IHl IH), Hstep. reflexivity. }
    rewrite Hl. reflexivity.
Qed.

(** X22. With none of the variables set, the resolver leaves the
    configuration as it is and calls the callback for nothing. *)
Theorem envResolver_unset (env : Env) (o : Options) (sub : list (string * value))
  (Hunset : forall k, env k = None) :
  envResolver env o sub = (sub, [], None).
Proof.
  unfold envResolver. induction sub as [|[k x] sub IH]; [reflexivity|].
  rewrite forEntries_cons by apply resolveValue_no_error.
  rewrite IH, (resolveValue_empty env _ _ x Hunset). reflexivity.
Qed.

Lemma sameShape_refl (v : value) : sameShape v v = true.
Proof.
  induction v as [s|b|n|f|m IH|l IH|] using value_induction; try reflexivity; simpl.
  - induction m as [|[k x] m IHm]; [reflexivity|].
    apply Forall_cons in IH as [Hx IH]. simpl in Hx.
    rewrite String.eqb_refl, Hx. simpl. apply IHm. exact IH.
  - induction l as [|x l IHl]; [reflexivity|].
    apply Forall_cons in IH as [Hx IH]. rewrite Hx. simpl. apply IHl. exact IH.
Qed.

Lemma resolveValue_shape (env : Env) (sep : string) (cb : bool) (v : value) :
  forall key, sameShape v (resolveValue env sep cb key v).1.1 = true.
Proof.
  induction v as [s|b|n|f|m IH|l IH|] using value_induction; intros key;
    try (rewrite resolveValue_scalar by exact I; simpl;
         unfold getBoolEnv, getIntEnv, getFloat64Env;
         destruct (env key) as [t|]; simpl;
         try destruct (ParseBool t); try destruct (Atoi t); try destruct (ParseFloat t);
         reflexivity);
    [| |reflexivity].
  - rewrite resolveValue_map. simpl.
    induction m as [|[k x] m IHm]; [reflexivity|].
    apply Forall_cons in IH as [Hx IH].
    rewrite forEntries_cons by apply resolveValue_no_error. simpl.
    rewrite String.eqb_refl. simpl in Hx. rewrite Hx. simpl. apply IHm. exact IH.
  - rewrite resolveValue_list. simpl. generalize 0%nat.
    induction l as [|x l IHl]; intros i; [reflexivity|].
    apply Forall_cons in IH as [Hx IH].
    rewrite forItems_cons by apply itemStep_no_error. simpl.
    rewrite (IHl IH).
    assert (Hstep : sameShape x (itemStep env sep cb key i x).1.1 = true).
    { unfold itemStep. destruct x; try apply Hx; apply sameShape_refl. }
    rewrite Hstep. reflexivity.
Qed.

(** X23. The resolver keeps the shape of the configuration: no entry
    is added or dropped, a list keeps its length, and a value keeps
    its type at every depth, a variable replacing a value only by one
    of the same type. *)
Theorem envResolver_shape (env : Env) (o : Options) (sub : list (string * value)) :
  sameShape (VMap sub) (VMap (envResolver env o sub).1.1) = true.
Proof.
  unfold envResolver. simpl.
  induction sub as [|[k x] sub IH]; [reflexivity|].
  rewrite forEntries_cons by apply resolveValue_no_error. simpl.
  rewrite String.eqb_refl, resolveValue_shape. simpl. exact IH.
Qed.

Lemma fromEnv_again (env : Env) (key : string) (v v1 : value) :
  fromEnv env key v = Some v1 -> fromEnv env key v1 = Some v1.
Proof.
  destruct v; simpl; try discriminate;
    unfold getBoolEnv, getIntEnv, getFloat64Env;
    destruct (env key) as [t|] eqn:Ht; simpl; try discriminate.
  - intros H; inversion H; subst. simpl. rewrite Ht. reflexivity.
  - destruct (ParseBool t) eqn:Hp; [|discriminate].
    intros H; inversion H; subst. simpl. unfold getBoolEnv. rewrite Ht, Hp. reflexivity.
  - destruct (Atoi t) eqn:Hp; [|discriminate].
    intros H; inversion H; subst. simpl. unfold getIntEnv. rewrite Ht, Hp. reflexivity.
  - destruct (ParseFloat t) eqn:Hp; [|discriminate].
    intros H; inversion H; subst. simpl. unfold getFloat64Env. rewrite Ht, Hp. reflexivity.
Qed.

Lemma fromEnv_scalar (env : Env) (key : string) (v v1 : value) :
  fromEnv env key v = Some v1 ->
  match v1 with VMap _ | VList _ | VOther => False | _ => True end.
Proof.
  destruct v; simpl; try discriminate;
    unfold getBoolEnv, getIntEnv, getFloat64Env;
    destruct (env key) as [t|]; simpl; try discriminate;
    try destruct (ParseBool t); try destruct (Atoi t); try destruct (ParseFloat t);
    simpl; try discriminate; intros H; inversion H; exact I.
Qed.

Lemma resolveValue_scalar_again (env : Env) (sep : string) (cb : bool) (key : string)
      (v : value) :
  match v with VMap _ | VList _ | VOther => False | _ => True end ->
  resolveValue env sep cb key (resolveValue env sep cb key v).1.1
    = resolveValue env sep cb key v /\
  match (resolveValue env sep cb key v).1.1 with
  | VMap _ | VList _ | VOther => False
  | _ => True
  end.
Proof.
  intros Hv. rewrite (resolveValue_scalar _ _ _ _ v Hv).
  destruct (fromEnv env key v) as [v1|] eqn:Hf; simpl.
  - pose proof (fromEnv_scalar _ _ _ _ Hf) as Hv1.
    split; [|exact Hv1].
    rewrite (resolveValue_scalar _ _ _ _ v1 Hv1), (fromEnv_again _ _ _ _ Hf).
    reflexivity.
  - split; [|exact Hv].
    rewrite (resolveValue_scalar _ _ _ _ v Hv), Hf. reflexivity.
Qed.

Lemma forEntries_again (f : string -> value -> value * Calls * option error)
      (m : list (string * value)) :
  (forall k x, (f k x).2 = None) ->
  Forall (fun kv => f kv.1 (f kv.1 kv.2).1.1 = f kv.1 kv.2) m ->
  forEntries f (forEntries f m).1.1 = forEntries f m.
Proof.
  intros Hok Hm. induction m as [|[k x] m IHm]; [reflexivity|].
  apply Forall_cons in Hm as [Hx Hm]. simpl in Hx.
  rewrite (forEntries_cons f k x m) by apply Hok. cbn [fst snd].
  rewrite (forEntries_cons f k (f k x).1.1) by apply Hok.
  rewrite Hx, (IHm Hm). reflexivity.
Qed.

Lemma forItems_again (f : nat -> value -> value * Calls * option error) (l : list value) :
  (forall i x, (f i x).2 = None) ->
  Forall (fun x => forall i, f i (f i x).1.1 = f i x) l ->
  forall i, forItems f i (forItems f i l).1.1 = forItems f i l.
Proof.
  intros Hok Hl. induction l as [|x l IHl]; intros i; [reflexivity|].
  apply Forall_cons in Hl as [Hx Hl].
  rewrite (forItems_cons f i x l) by apply Hok. cbn [fst snd].
  rewrite (forItems_cons f i (f i x).1.1) by apply Hok.
  rewrite Hx, (IHl Hl). reflexivity.
Qed.

Lemma itemStep_again (env : Env) (sep : string) (cb : bool) (key : string)
      (i : nat) (x : value) :
  (forall key, resolveValue env sep cb key (resolveValue env sep cb key x).1.1
               = resolveValue env sep cb key x) ->
  itemStep env sep cb key i (itemStep env sep cb key i x).1.1
    = itemStep env sep cb key i x.
Proof.
  intros Hx.
  assert (Hscalar : forall v,
             match v with VMap _ | VList _ | VOther => False | _ => True end ->
             itemStep env sep cb key i (itemStep env sep cb key i v).1.1
               = itemStep env sep cb key i v).
  { intros v Hv.
    assert (Hstep : itemStep env sep cb key i v
                    = resolveValue env sep cb (indexKey sep key i) v)
      by (destruct v; try contradiction; reflexivity).
    rewrite Hstep.
    destruct (resolveValue_scalar_again env sep cb (indexKey sep key i) v Hv)
      as [Heq Hkind].
    destruct ((resolveValue env sep cb (indexKey sep key i) v).1.1) eqn:Hr;
      try contradiction; exact Heq. }
  destruct x as [s|b|n|f|m|l|]; try (apply Hscalar; exact I); try reflexivity.
  change (itemStep env sep cb key i (VMap m))
    with (resolveValue env sep cb (indexKey sep key i) (VMap m)).
  rewrite <- (Hx (indexKey sep key i)) at 2.
  rewrite (resolveValue_map _ _ _ _ m) at 1 2. reflexivity.
Qed.

Lemma resolveValue_again (env : Env) (sep : string) (cb : bool) (v : value) :
  forall key,
    resolveValue env sep cb key (resolveValue env sep cb key v).1.1
    = resolveValue env sep cb key v.
Proof.
  induction v as [s|b|n|f|m IH|l IH|] using value_induction; intros key;
    try (apply resolveValue_scalar_again; exact I); [| |reflexivity].
  - rewrite (resolveValue_map _ _ _ _ m). cbn [fst snd].
    rewrite resolveValue_map, forEntries_again.
    + reflexivity.
    + intros k x. apply resolveValue_no_error.
    + eapply Forall_impl; [exact IH|]. intros [k x] Hx. simpl. apply Hx.
  - rewrite (resolveValue_list _ _ _ _ l). cbn [fst snd].
    rewrite resolveValue_list, forItems_again.
    + reflexivity.
    + intros i x. apply itemStep_no_error.
    + eapply Forall_impl; [exact IH|]. intros x Hx i.
      apply itemStep_again. exact Hx.
Qed.

(** X24. Resolving a configuration a second time against the same
    environment changes nothing more: the result, the calls of the
    callback included, is that of the first time. *)
Theorem envResolver_again (env : Env) (o : Options) (sub : list (string * value)) :
  envResolver env o (envResolver env o sub).1.1 = envResolver env o sub.
Proof.
  unfold envResolver. apply forEntries_again.
  - intros k x. apply resolveValue_no_error.
  - apply Forall_forall. intros [k x] _. simpl. apply resolveValue_again.
Qed.

Lemma forEntries_member (f : string -> value -> value * Calls * option error)
      (m : list (string * value)) (k : string) (x : value) :
  (forall k x, (f k x).2 = None) ->
  (k, x) ∈ m -> (k, (f k x).1.1) ∈ (forEntries f m).1.1.
Proof.
  intros Hok. induction m as [|[k0 x0] m IH]; intros Hin; [inversion Hin|].
  rewrite forEntries_cons by apply Hok. simpl.
  apply elem_of_cons in Hin as [Heq|Hin].
  - inversion Heq; subst. left.
  - right. apply IH. exact Hin.
Qed.

(** X25. A string entry of the top level takes the text of the
    variable named by the prefix, the separator and the name of the
    entry, in upper case, when that variable is set, and keeps its
    value when it is not. *)
Theorem envResolver_string_entry (env : Env) (o : Options) (sub : list (string * value))
        (k s : string)
  (Hentry : (k, VString s) ∈ sub) :
  (k, VString (default s (env (entryKey (separator o) (prefix o) k))))
    ∈ (envResolver env o sub).1.1.
Proof.
  unfold envResolver.
  apply (forEntries_member
           (fun k x => resolveValue env (separator o) (loaded o)
                         (entryKey (separator o) (prefix o) k) x)) in Hentry;
    [|intros; apply resolveValue_no_error].
  simpl in Hentry.
  destruct (env (entryKey (separator o) (prefix o) k)); exact Hentry.
Qed.

(** X26. A boolean entry of the top level takes the value of its
    variable only when the text of the variable is one of the twelve
    spellings [ParseBool] knows; with the variable unset or spelled
    otherwise the entry keeps its value. *)
Theorem envResolver_bool_entry (env : Env) (o : Options) (sub : list (string * value))
        (k : string) (b : bool)
  (Hentry : (k, VBool b) ∈ sub) :
  (k, VBool (default b (env (entryKey (separator o) (prefix o) k) ≫= ParseBool)))
    ∈ (envResolver env o sub).1.1.
Proof.
  unfold envResolver.
  apply (forEntries_member
           (fun k x => resolveValue env (separator o) (loaded o)
                         (entryKey (separator o) (prefix o) k) x)) in Hentry;
    [|intros; apply resolveValue_no_error].
  simpl in Hentry. unfold getBoolEnv in Hentry.
  destruct (env (entryKey (separator o) (prefix o) k)) as [t|]; simpl; [|exact Hentry].
  destruct (ParseBool t); exact Hentry.
Qed.

End EnvResolver.

(** * Concrete runs *)

Section Runs.
Local Existing Instance Fragment.cron.
Local Existing Instance Fragment.engine.
Local Existing Instance Fragment.http.
Local Existing Instance Fragment.json.
Import Fragment.


Lemma keyed_two : keyed two.
Proof.
  intros k v Hk. unfold two, one in Hk.
  apply lookup_insert_Some in Hk as [[<- <-]|[_ Hk]]; [reflexivity|].
  apply lookup_insert_Some in Hk as [[<- <-]|[_ Hk]]; [reflexivity|].
  rewrite lookup_empty in Hk. discriminate.
Defined.







(** C3, the claim as stated fails: for a quarter-hour record [diff] is
    900 and the retention is 600 seconds, where the minimum of
    [diff / 3] and 600 is 300. *)
Lemma scan_retention_counterexample :
  (scan_build worker 100 quarter).2 - Next quarter = 900 /\
  Z.min (900 / 3) 600 = 300 /\
  asynq.retentionOf (scan_build worker 100 quarter).1 = Some (Seconds 600) /\
  asynq.retentionOf (scan_build worker 100 quarter).1 <>
    Some (Seconds (Z.min (900 / 3) 600)).
Proof.
  split; [reflexivity|]. split; [reflexivity|]. split; [reflexivity|].
  vm_compute. discriminate.
Defined.




(** C5, the claim as stated fails: a record that sets no timeout is
    submitted with the timeout 0 and not with the default of the group. *)
Lemma scan_submission_options_counterexample :
  Timeout untimed = 0 /\
  timeout (ops worker) = 10 /\
  asynq.timeoutOf (scan_build worker 100 untimed).1 = Some (Seconds 0) /\
  asynq.timeoutOf (scan_build worker 100 untimed).1 <>
    Some (Seconds (timeout (ops worker))).
Proof.
  split; [reflexivity|]. split; [reflexivity|]. split; [reflexivity|].
  vm_compute. discriminate.
Defined.

(** C6, at the failing input: the record [a] has been completed five
    times, the read of the field fails and the write goes through.
    The completion returns, and what is stored under [a] afterwards is
    the zero record with [processed] 1. *)
Lemma processed_read_failure_witness :
  Processed <$> store w_readfail !! "a" = Some 5 /\
  exists w',
    processed 1 "a" w_readfail = Some w' /\
    store w' !! "a" =
      Some {| Expr := ""; Name := ""; Uid := ""; Payload := "";
              Next := 0; Processed := 1; MaxRetry := 0; Timeout := 0 |}.
Proof.
  split; [reflexivity|].
  exact (@processed_read_failure engine 0 "a" w_readfail eq_refl eq_refl eq_refl).
Defined.



(** C9, instances: an empty uid, and an expression outside the fragment. *)
Lemma registration_validates_witness :
  (Cron worker 100 (registration "" "* * * * *") w_one = (w_one, Some ErrUuidNil) /\
   Once worker (registration "" "* * * * *") w_one = (w_one, Some ErrUuidNil)) /\
  Cron worker 100 (registration "a" "every day") w_one = (w_one, Some ErrExprInvalid).
Proof.
  split.
  - exact (proj1 (@registration_validates cron engine json worker 100
                    (registration "" "* * * * *") w_one) eq_refl).
  - exact (proj2 (@registration_validates cron engine json worker 100
                    (registration "a" "every day") w_one) eq_refl).
Defined.

(** C10, an instance: the registration of [a] in the category [mail]. *)
Lemma envelope_category_witness :
  (exists d, deliver (Once_build worker (registration "a" "* * * * *")) = Some d /\
             envelopeOf d =
               {| envelope.Category := "mail.once"; envelope.Uid := "a";
                  envelope.Body := "p1" |}) /\
  (exists item,
     store (Cron worker 100 (registration "a" "* * * * *") w_empty).1 !! "a" = Some item /\
     forall later n c : Z,
     exists d,
       deliver (scan_build worker later (set_Processed (set_Next item n) c)).1 = Some d /\
       envelopeOf d =
         {| envelope.Category := "mail.cron"; envelope.Uid := "a";
            envelope.Body := "p1" |}).
Proof.
  destruct (@envelope_category cron engine json worker 100
              (registration "a" "* * * * *") w_empty) as (Honce & Hcron).
  split; [exact Honce|]. exact (Hcron _ eq_refl).
Defined.

(** C10, the claim as stated fails. A registration by [Cron] under a
    uid that is no valid UTF-8, the single byte 255, succeeds; the
    record it files carries the replacement character as its uid, and
    so does the envelope of the job a scan builds from it. *)
Lemma envelope_category_counterexample :
  exists w' item d,
    Cron worker 100 (registration stray "* * * * *") w_empty = (w', None) /\
    store w' !! stray = Some item /\
    deliver (scan_build worker 101 item).1 = Some d /\
    envelope.Uid (envelopeOf d) = replacement /\
    envelope.Uid (envelopeOf d) <> stray.
Proof.
  eexists. eexists. eexists.
  split; [reflexivity|]. split; [reflexivity|]. split; [reflexivity|].
  split; [reflexivity|]. vm_compute. discriminate.
Defined.

End Runs.

(** * Concrete runs of the further properties *)

Section MoreRuns.
Local Existing Instance Fragment.runtime.
Local Existing Instance Fragment.cron.
Local Existing Instance Fragment.engine.
Local Existing Instance Fragment.http.
Local Existing Instance Fragment.json.
Import Fragment.

(** X3, an instance: the removal of [a] from the hash of two records. *)
Lemma Remove_deletes_witness :
  lockHeld w_two = false /\
  (exists w',
      Remove worker 1 "a" w_two = Some (w', None) /\
      store w' !! "a" = None /\
      (forall k, k <> "a" -> store w' !! k = store w_two !! k) /\
      lockHeld w' = false) /\
  (forall n, Remove worker n "a" (with_lock w_two true) = None).
Proof.
  split; [reflexivity|].
  exact (@Remove_deletes engine worker 0 "a" w_two eq_refl).
Defined.

(** X4, an instance: after the removal of [a] the tick submits [b] alone. *)
Lemma Remove_then_scan_witness :
  Remove worker 1 "a" w_two
    = Some (world (delete "a" two) false idle, None) /\
  Forall (fun a : Attempt => asynq.taskIDOf a.1 <> Some "a")
         (scan worker 100 (world (delete "a" two) false idle)).2 /\
  length (scan worker 100 (world (delete "a" two) false idle)).2 = 1%nat.
Proof.
  split; [reflexivity|]. split; [|vm_compute; reflexivity].
  exact (@Remove_then_scan cron engine worker 1 100 "a" w_two
           (world (delete "a" two) false idle) None
           (HGetAll (world (delete "a" two) false idle))
           keyed_two eq_refl (reflexivity _)).
Defined.

(** X5, instances: a completion for [a] after its removal, over a
    store that answers, and over one whose reads of [a] fail. *)
Lemma Remove_then_processed_witness :
  (Remove worker 1 "a" w_two = Some (world (delete "a" two) false idle, None) /\
   exists w'',
     processed 1 "a" (world (delete "a" two) false idle) = Some w'' /\
     w'' = world (delete "a" two) false idle) /\
  (exists w' w'',
     Remove worker 1 "a" w_readfail = Some (w', None) /\
     store w' !! "a" = None /\
     processed 1 "a" w' = Some w'' /\
     Processed <$> store w'' !! "a" = Some 1).
Proof.
  split.
  - split; [reflexivity|].
    exact (@Remove_then_processed engine worker 1 0 "a" w_two
             (world (delete "a" two) false idle) None eq_refl).
  - destruct (@Remove_then_processed engine worker 1 0 "a" w_readfail
                _ None eq_refl) as (w'' & Hdone & Hstore).
    eexists. exists w''. split; [reflexivity|]. split; [reflexivity|].
    split; [exact Hdone|]. simpl in Hstore. rewrite Hstore. reflexivity.
Defined.

(** X7, an instance: a failing handler, beside a callback, under a
    client that answers 200 and under one that answers 500. *)
Lemma ProcessTask_prefers_handler_witness :
  handler (ops worker_handled) = Some (fun _ => Some (ErrCollaborator 7)) /\
  @ProcessTask engine http worker_handled 1 (delivery "a") w_one
    = @ProcessTask engine http_down worker_handled 1 (delivery "a") w_one /\
  snd <$> @ProcessTask engine http worker_handled 1 (delivery "a") w_one
    = Some (Some (ErrCollaborator 7)).
Proof.
  split; [reflexivity|].
  exact (@ProcessTask_prefers_handler engine http http_down worker_handled 0
           (delivery "a") w_one _ eq_refl eq_refl).
Defined.



(** X11, an instance: the retention of the quarter-hour record. *)
Lemma scan_retention_bounds_witness :
  asynq.retentionOf (scan_build worker 100 quarter).1 = Some (Seconds 600) /\
  3 * Second <= Seconds 600 <= 600 * Second.
Proof.
  split; [reflexivity|].
  exact (@scan_retention_bounds cron worker 100 quarter (Seconds 600) eq_refl).
Defined.

(** X12, an instance: registering [a] again, at 4000, over its record. *)
Lemma Cron_upsert_witness :
  exists w',
    Cron worker 4000 (registration "a" "*/15 * * * *") w_one = (w', None) /\
    store w' =
      <["a" := {| Expr := "*/15 * * * *"; Name := "mail.cron"; Uid := "a";
                  Payload := "p1"; Next := 4500; Processed := 0;
                  MaxRetry := 0; Timeout := 60 |}]> (store w_one) /\
    queue w' = queue w_one /\
    lockHeld w' = lockHeld w_one.
Proof.
  refine (@Cron_upsert cron engine json worker 4000 (registration "a" "*/15 * * * *")
            w_one (Every 900) _ eq_refl).
  vm_compute. discriminate.
Defined.

(** X14, an instance: the job the reaper deletes at 37000. *)
Lemma reaper_spares_recent_witness :
  (clearArchived worker 37000 w_archive).2 = ["x"] /\
  exists l item,
    inspector_ListArchivedTasks (queue w_archive) (group (ops worker)) = inl l /\
    item ∈ l /\ asynq.ID item = "x" /\
    asynq.LastFailedAt item + 300 < 37000 /\
    (HasSuffix (asynq.Type_of item) ".cron" = true ->
     is_Some (store w_archive !! "x") \/ hgetFails w_archive "x" = true).
Proof.
  split; [vm_compute; reflexivity|].
  apply (@reaper_spares_recent cron engine worker 37000 w_archive "x").
  vm_compute. left.
Defined.


(** X17, an instance: a not-found error wrapped once. *)
Lemma Trace_not_found_witness :
  gormlog.Trace logger None 1000 ("SELECT 1", 0)
    (Some (gormlog.Wrapped "find user" gormlog.ErrRecordNotFound))
  = gormlog.Trace logger None 1000 ("SELECT 1", 0) None.
Proof.
  exact (Trace_not_found logger None 1000 ("SELECT 1", 0)
           (gormlog.Wrapped "find user" gormlog.ErrRecordNotFound) eq_refl).
Defined.

(** X19, an instance: at the error level a failed statement that took
    300 ms, above the threshold of 200 ms, leaves no line. *)
Lemma Trace_failure_witness :
  gormlog.Trace logger None 300000000 ("UPDATE t", 3) (Some (gormlog.ErrOther 1))
    = None /\
  (gormlog.level logger < gormlog.Error \/
   (true = true /\ gormlog.level logger < gormlog.Warn)).
Proof.
  split; [reflexivity|].
  exact (Trace_failure logger None 300000000 ("UPDATE t", 3) (gormlog.ErrOther 1)
           eq_refl).
Defined.

(** X22, an instance: the configuration under an empty environment. *)
Lemma envResolver_unset_witness :
  envresolver.envResolver nothing_set overlay config = (config, [], None).
Proof.
  exact (@envResolver_unset runtime nothing_set overlay config (fun _ => eq_refl)).
Defined.

(** X25, an instance: the address is taken from [APP_ADDR]. *)
Lemma envResolver_string_entry_witness :
  envresolver.entryKey "_" "app" "addr" = "APP_ADDR" /\
  ("addr", envresolver.VString "0.0.0.0:8080")
    ∈ (envresolver.envResolver environment overlay config).1.1.
Proof.
  split; [reflexivity|].
  refine (@envResolver_string_entry runtime environment overlay config
            "addr" "127.0.0.1:80" _).
  left.
Defined.

(** X26, an instance: [APP_DEBUG] is set to a text that is no boolean,
    and the flag keeps its value. *)
Lemma envResolver_bool_entry_witness :
  environment "APP_DEBUG" = Some "yes" /\
  ("debug", envresolver.VBool false)
    ∈ (envresolver.envResolver environment overlay config).1.1.
Proof.
  split; [reflexivity|].
  refine (@envResolver_bool_entry runtime environment overlay config "debug" false _).
  right. left.
Defined.

End MoreRuns.
